(** * Aventurine League Tools: native helpers

    A shallow embedding of the two algorithms of [src/native]:

    - the TEX to DDS container conversion [tex_to_dds_bytes]
      (ritoddstex_dll.c, duplicated in lol_native.cpp), and
    - the BIN texture-path extraction [extract_textures]
      (bin_parser.cpp, with an older variant in ritobin_dll.cpp and
      lol_native.cpp).

    C integers are [Z] with their wrap-around written out, byte buffers are
    lists, the two [std::unordered_map]s of the extractor are [gmap]s, and
    the order in which the library iterates over one is an argument of the
    output loop. *)

From Stdlib Require Import ZArith Lia.
From Stdlib.Strings Require Import Byte.
From stdpp Require Import base numbers option list strings gmap.

Local Open Scope Z_scope.

(** ** Machine integers *)

(** Conversion to [uint32_t]. *)
Definition u32 (z : Z) : Z := z mod 2 ^ 32.

(** Conversion to [int32_t] (two's complement). *)
Definition s32 (z : Z) : Z :=
  let r := z mod 2 ^ 32 in if r <? 2 ^ 31 then r else r - 2 ^ 32.

(** The macro [MAX(a, b)] of ritoddstex_dll.c. *)
Definition MAX (a b : Z) : Z := if a >? b then a else b.

#[global] Instance byte_eq_dec : EqDecision byte.
Proof.
  intros a b. destruct (Byte.eqb a b) eqn:E.
  - left. by apply Byte.byte_dec_bl.
  - right. intros H. apply Byte.byte_dec_lb in H. congruence.
Defined.

Definition byte_to_Z (b : byte) : Z := Z.of_N (Byte.to_N b).

Definition Z_to_byte (z : Z) : byte :=
  default x00 (Byte.of_N (Z.to_N (z mod 256))).

(** A little-endian 16-bit field read from two bytes. *)
Definition le16 (lo hi : byte) : Z := byte_to_Z lo + 256 * byte_to_Z hi.

(** The four bytes of a [uint32_t] in memory (little-endian). *)
Definition bytes_of_u32 (z : Z) : list byte :=
  [Z_to_byte z; Z_to_byte (Z.shiftr z 8); Z_to_byte (Z.shiftr z 16);
   Z_to_byte (Z.shiftr z 24)].

(** [size_t] lengths as integers. *)
Definition Zlen {A} (l : list A) : Z := Z.of_nat (length l).

(** ** tex.h *)

Module Tex.

Definition TEX_FORMAT_ETC1   : Z := 0x01.
Definition TEX_FORMAT_ETC2   : Z := 0x03.
Definition TEX_FORMAT_DXT1   : Z := 0x0A.
Definition TEX_FORMAT_DXT5   : Z := 0x0C.
Definition TEX_FORMAT_BGRA8  : Z := 0x14.
Definition TEX_FORMAT_RGBA16 : Z := 0x15.

(** ['T'; 'E'; 'X'; '\0'] *)
Definition TEX_MAGIC : list byte := [x54; x45; x58; x00].

(** The packed struct [TEX_HEADER]: 4 + 2 + 2 + 1 + 1 + 1 + 1 bytes. *)
Record TEX_HEADER := mkTexHeader {
  magic : list byte;
  image_width : Z;
  image_height : Z;
  unk1 : Z;
  tex_format : Z;
  unk2 : Z;
  has_mipmaps : Z
}.

Definition sizeof_TEX_HEADER : Z := 12.

(** [fread(&tex_header, sizeof(TEX_HEADER), 1, tex_file)] at the start of the
    file: [None] when fewer than twelve bytes are there. *)
Definition fread_TEX_HEADER (raw : list byte) : option TEX_HEADER :=
  match raw with
  | m0 :: m1 :: m2 :: m3 :: w0 :: w1 :: h0 :: h1 :: u1 :: f :: u2 :: hm :: _ =>
      Some {| magic := [m0; m1; m2; m3];
              image_width := le16 w0 w1;
              image_height := le16 h0 h1;
              unk1 := byte_to_Z u1;
              tex_format := byte_to_Z f;
              unk2 := byte_to_Z u2;
              has_mipmaps := byte_to_Z hm |}
  | _ => None
  end.

End Tex.

(** ** dds.h *)

Module Dds.

Definition DDS_HEADER_FLAGS_TEXTURE  : Z := 0x00001007.
Definition DDS_HEADER_FLAGS_MIPMAP   : Z := 0x00020000.
Definition DDS_FOURCC                : Z := 0x00000004.
Definition DDS_RGBA                  : Z := 0x00000041.
Definition DDS_SURFACE_FLAGS_TEXTURE : Z := 0x00001000.
Definition DDS_SURFACE_FLAGS_MIPMAP  : Z := 0x00400008.

(** ['D'; 'D'; 'S'; ' '] *)
Definition DDS_MAGIC : list byte := [x44; x44; x53; x20].

Record DDS_PIXELFORMAT := mkPixelFormat {
  pf_dwSize : Z;
  pf_dwFlags : Z;
  dwFourCC : list byte;
  dwRGBBitCount : Z;
  dwRBitMask : Z;
  dwGBitMask : Z;
  dwBBitMask : Z;
  dwABitMask : Z
}.

Definition sizeof_DDS_PIXELFORMAT : Z := 32.

Record DDS_HEADER := mkDdsHeader {
  dwSize : Z;
  dwFlags : Z;
  dwHeight : Z;
  dwWidth : Z;
  dwPitchOrLinearSize : Z;
  dwDepth : Z;
  dwMipMapCount : Z;
  dwReserved1 : list Z;
  ddspf : DDS_PIXELFORMAT;
  dwCaps : Z;
  dwCaps2 : Z;
  dwCaps3 : Z;
  dwCaps4 : Z;
  dwReserved2 : Z
}.

Definition sizeof_DDS_HEADER : Z := 124.

(** The object representation of the packed structs, as [memcpy] sees it. *)
Definition bytes_of_DDS_PIXELFORMAT (p : DDS_PIXELFORMAT) : list byte :=
  bytes_of_u32 (pf_dwSize p) ++ bytes_of_u32 (pf_dwFlags p) ++
  dwFourCC p ++
  bytes_of_u32 (dwRGBBitCount p) ++ bytes_of_u32 (dwRBitMask p) ++
  bytes_of_u32 (dwGBitMask p) ++ bytes_of_u32 (dwBBitMask p) ++
  bytes_of_u32 (dwABitMask p).

Definition bytes_of_DDS_HEADER (h : DDS_HEADER) : list byte :=
  bytes_of_u32 (dwSize h) ++ bytes_of_u32 (dwFlags h) ++
  bytes_of_u32 (dwHeight h) ++ bytes_of_u32 (dwWidth h) ++
  bytes_of_u32 (dwPitchOrLinearSize h) ++ bytes_of_u32 (dwDepth h) ++
  bytes_of_u32 (dwMipMapCount h) ++
  concat (bytes_of_u32 <$> dwReserved1 h) ++
  bytes_of_DDS_PIXELFORMAT (ddspf h) ++
  bytes_of_u32 (dwCaps h) ++ bytes_of_u32 (dwCaps2 h) ++
  bytes_of_u32 (dwCaps3 h) ++ bytes_of_u32 (dwCaps4 h) ++
  bytes_of_u32 (dwReserved2 h).

End Dds.

(** ** Buffers

    A [malloc]ed buffer is a list of cells, [None] for a byte that was never
    written.  [memcpy dst d src s n] copies [n] bytes of [src] from offset [s]
    to offset [d] of [dst]; a copy that leaves either buffer has no defined
    behaviour and is reported as [None]. *)

Definition buffer := list (option byte).

Definition malloc (n : Z) : buffer := replicate (Z.to_nat n) None.

Definition memcpy (dst : buffer) (d : Z) (src : list byte) (s n : Z)
  : option buffer :=
  if bool_decide (0 ≤ n ∧ 0 ≤ d ∧ d + n ≤ Zlen dst ∧ 0 ≤ s ∧ s + n ≤ Zlen src)
  then Some (take (Z.to_nat d) dst
             ++ (Some <$> take (Z.to_nat n) (drop (Z.to_nat s) src))
             ++ drop (Z.to_nat (d + n)) dst)
  else None.

(** What a call of [tex_to_dds_bytes] can do: return 0 with [*out_data] and
    [*out_size] set, return a negative status, or run into an out-of-bounds
    copy. *)
Inductive outcome :=
  | Success (out_data : buffer) (out_size : Z)
  | Failure (status : Z)
  | OutOfBounds.

Definition or_fault {A} (o : option A) (k : A → outcome) : outcome :=
  match o with Some a => k a | None => OutOfBounds end.

Notation "'copy' x ← e ; k" := (or_fault e (λ x, k))
  (at level 10, x name, e at level 100, k at level 200, only parsing).

(** ** ritoddstex_dll.c *)

Module Ritoddstex.
Import Tex Dds.

(** The intrinsic [_BitScanReverse]: the index of the highest set bit of a
    32-bit mask, [None] (return value 0) when the mask is zero. *)
Fixpoint bit_scan_from (n : nat) (x : Z) : option Z :=
  match n with
  | O => None
  | S k => if Z.testbit x (Z.of_nat k) then Some (Z.of_nat k)
           else bit_scan_from k x
  end.

Definition _BitScanReverse (x : Z) : option Z := bit_scan_from 32 x.

Definition clz32 (x : Z) : Z :=
  match _BitScanReverse x with
  | Some index => 31 - index
  | None => 32
  end.

Definition calc_mipmap_count (width height : Z) : Z :=
  let max_dim := MAX width height in
  32 - clz32 max_dim.

Definition get_bytes_per_block (format : Z) : Z :=
  if format =? TEX_FORMAT_DXT1 then 8
  else if format =? TEX_FORMAT_DXT5 then 16
  else if format =? TEX_FORMAT_BGRA8 then 4
  else if format =? TEX_FORMAT_RGBA16 then 8
  else 0.

Definition get_block_size (format : Z) : Z :=
  if (format =? TEX_FORMAT_DXT1) || (format =? TEX_FORMAT_DXT5) then 4
  else if (format =? TEX_FORMAT_BGRA8) || (format =? TEX_FORMAT_RGBA16) then 1
  else 1.

(** The [switch] on [tex_header.tex_format] followed by the [memcpy] of the
    four-character code: the pixel format and [need_dx10], or [None] for the
    [default] branch. *)
Definition zero_pixelformat : DDS_PIXELFORMAT :=
  mkPixelFormat sizeof_DDS_PIXELFORMAT 0 [x00; x00; x00; x00] 0 0 0 0 0.

Definition fourcc_pixelformat (fourcc : list byte) : DDS_PIXELFORMAT :=
  mkPixelFormat sizeof_DDS_PIXELFORMAT DDS_FOURCC fourcc 0 0 0 0 0.

Definition select_pixelformat (format : Z) : option (DDS_PIXELFORMAT * bool) :=
  if format =? TEX_FORMAT_DXT1 then
    Some (fourcc_pixelformat [x44; x58; x54; x31], false)      (* "DXT1" *)
  else if format =? TEX_FORMAT_DXT5 then
    Some (fourcc_pixelformat [x44; x58; x54; x35], false)      (* "DXT5" *)
  else if format =? TEX_FORMAT_BGRA8 then
    Some (mkPixelFormat sizeof_DDS_PIXELFORMAT DDS_RGBA [x00; x00; x00; x00]
            32 0x00ff0000 0x0000ff00 0x000000ff 0xff000000, false)
  else if format =? TEX_FORMAT_RGBA16 then
    Some (fourcc_pixelformat [x44; x58; x31; x30], true)       (* "DX10" *)
  else None.

(** [memcmp(tex_header.magic, TEX_MAGIC, 3) != 0] *)
Definition magic_differs (h : TEX_HEADER) : bool :=
  negb (bool_decide (take 3 (magic h) = take 3 TEX_MAGIC)).

Definition dx10_header : list byte :=
  [x0d; x00; x00; x00;  x03; x00; x00; x00;  x00; x00; x00; x00;
   x01; x00; x00; x00;  x01; x00; x00; x00].

Section Convert.
(** [lol_native.cpp] repeats the function with its own
    [calc_mipmap_count]; the allocator is the environment's. *)
Variable calc_mipmap_count : Z → Z → Z.
Variable malloc_ok : Z → bool.

Definition mipmap_count_of (tex_header : TEX_HEADER) : Z :=
  if has_mipmaps tex_header =? 0 then 0
  else calc_mipmap_count (image_width tex_header) (image_height tex_header).

Definition make_dds_header (tex_header : TEX_HEADER)
    (pf : DDS_PIXELFORMAT) : DDS_HEADER :=
  let mip := negb (has_mipmaps tex_header =? 0) in
  {| dwSize := sizeof_DDS_HEADER;
     dwFlags := if mip
                then Z.lor DDS_HEADER_FLAGS_TEXTURE DDS_HEADER_FLAGS_MIPMAP
                else DDS_HEADER_FLAGS_TEXTURE;
     dwHeight := image_height tex_header;
     dwWidth := image_width tex_header;
     dwPitchOrLinearSize := 0;
     dwDepth := 0;
     dwMipMapCount := mipmap_count_of tex_header;
     dwReserved1 := replicate 11 0;
     ddspf := pf;
     dwCaps := if mip
               then Z.lor DDS_SURFACE_FLAGS_TEXTURE DDS_SURFACE_FLAGS_MIPMAP
               else DDS_SURFACE_FLAGS_TEXTURE;
     dwCaps2 := 0; dwCaps3 := 0; dwCaps4 := 0; dwReserved2 := 0 |}.

(** The byte length of level [i], as the loop body computes it. *)
Definition mip_size (tex_header : TEX_HEADER) (i : Z) : Z :=
  let block_size := get_block_size (tex_format tex_header) in
  let bytes_per_block := get_bytes_per_block (tex_format tex_header) in
  let mip_width := MAX (Z.shiftr (image_width tex_header) i) 1 in
  let mip_height := MAX (Z.shiftr (image_height tex_header) i) 1 in
  let block_width := u32 (mip_width + block_size - 1) / block_size in
  let block_height := u32 (mip_height + block_size - 1) / block_size in
  u32 (bytes_per_block * block_width * block_height).

(** The [for] loop over the levels [i, i + 1, ..., i + n - 1]. *)
Fixpoint copy_mips (tex_header : TEX_HEADER) (tex_data : list byte)
    (n : nat) (i : Z) (current_offset ptr : Z) (dds_data : buffer)
    : option buffer :=
  match n with
  | O => Some dds_data
  | S n' =>
      let size := mip_size tex_header i in
      let current_offset := s32 (current_offset - size) in
      if current_offset <? 0 then Some dds_data
      else
        d ← memcpy dds_data ptr tex_data current_offset size;
        copy_mips tex_header tex_data n' (i + 1) current_offset
                  (ptr + size) d
  end.

(** [tex_to_dds_bytes] on the content of the file at [tex_path], [None]
    for a file that cannot be opened.  [ftell] is taken to return the length
    of the file, as it does for a file shorter than [2 ^ 31] bytes; the
    statements below are about such files. *)
Definition tex_to_dds_bytes (tex_file : option (list byte)) : outcome :=
  match tex_file with
  | None => Failure (-1)
  | Some raw =>
    let file_size := u32 (Zlen raw) in
    match (if file_size <? sizeof_TEX_HEADER then None
           else fread_TEX_HEADER raw) with
    | None => Failure (-2)
    | Some tex_header =>
      if magic_differs tex_header then Failure (-2) else
      match select_pixelformat (tex_format tex_header) with
      | None => Failure (-3)
      | Some (pf, need_dx10) =>
        let dds_header := make_dds_header tex_header pf in
        let mipmap_count := mipmap_count_of tex_header in
        let tex_data_size := u32 (file_size - sizeof_TEX_HEADER) in
        let header_size :=
          u32 (4 + sizeof_DDS_HEADER + if need_dx10 then 20 else 0) in
        let total_size := u32 (header_size + tex_data_size) in
        if negb (malloc_ok total_size) then Failure (-4) else
        let dds_data := malloc total_size in
        copy dds_data ← memcpy dds_data 0 DDS_MAGIC 0 4;
        copy dds_data ← memcpy dds_data 4 (bytes_of_DDS_HEADER dds_header)
                               0 sizeof_DDS_HEADER;
        copy dds_data ← (if need_dx10
                         then memcpy dds_data (4 + sizeof_DDS_HEADER)
                                     dx10_header 0 20
                         else Some dds_data);
        if negb (malloc_ok tex_data_size) then Failure (-4) else
        let rest := drop (Z.to_nat sizeof_TEX_HEADER) raw in
        if negb (Zlen rest >=? tex_data_size) then Failure (-2) else
        let tex_data := take (Z.to_nat tex_data_size) rest in
        copy dds_data ←
          (if negb (has_mipmaps tex_header =? 0) && (mipmap_count >? 0)
           then copy_mips tex_header tex_data (Z.to_nat mipmap_count) 0
                          (s32 tex_data_size) header_size dds_data
           else memcpy dds_data header_size tex_data 0 tex_data_size);
        Success dds_data total_size
      end
    end
  end.
End Convert.

Definition convert := tex_to_dds_bytes calc_mipmap_count.

End Ritoddstex.

(** ** lol_native.cpp: the conversion half *)

Module LolNative.

(** [while (max_dim > 0) { count++; max_dim >>= 1; }] on a [uint32_t]: the
    shift empties the word after at most 32 rounds. *)
Fixpoint count_shifts (rounds : nat) (max_dim count : Z) : Z :=
  match rounds with
  | O => count
  | S r => if max_dim >? 0
           then count_shifts r (Z.shiftr max_dim 1) (u32 (count + 1))
           else count
  end.

Definition calc_mipmap_count (width height : Z) : Z :=
  let max_dim := if width >? height then width else height in
  count_shifts 32 max_dim 0.

Definition get_block_size (format : Z) : Z :=
  if (format =? Tex.TEX_FORMAT_DXT1) || (format =? Tex.TEX_FORMAT_DXT5) then 4
  else 1.

Definition convert := Ritoddstex.tex_to_dds_bytes calc_mipmap_count.

End LolNative.

(** ** The decoded object graph

    Modelled from the spec: the value types of the ritobin library
    ([bin_types.hpp], included by the extractors but not part of [src/]) are
    taken from the data model of the specification.  The constructors carry
    the specification's names; the extractors reach them as
    [ritobin::String] ([Text]), [ritobin::Hash] ([HashId]), [ritobin::Link]
    ([Link]), [ritobin::Embed] ([Object]), [ritobin::List] ([ListA]),
    [ritobin::List2] ([ListB]), [ritobin::Map] ([Mapping]) and
    [ritobin::Pointer] ([PointerObject]). *)

Module Bin.

(** A 32-bit name hash with its optional source text. *)
Record FNV1a := mkFNV1a { hash : Z; str : option string }.

#[local] Set Warnings "-register-all".

Inductive Value :=
  | Text (s : string)
  | HashId (h : FNV1a)
  | Link (h : FNV1a)
  | Object (e : Embed)
  | ListA (elems : list Value)
  | ListB (elems : list Value)
  | Mapping (pairs : list (Value * Value))
  | PointerObject (p : option Embed)
with Embed := mkEmbed (name : FNV1a) (items : list Field)
with Field := mkField (key : FNV1a) (value : Value).

Definition items_of (e : Embed) : list Field :=
  match e with mkEmbed _ items => items end.

Definition key_of (f : Field) : FNV1a :=
  match f with mkField key _ => key end.

Definition value_of (f : Field) : Value :=
  match f with mkField _ value => value end.

(** Named top-level sections. *)
Record Document := mkDocument { sections : gmap string Value }.

End Bin.

(** ** bin_parser.cpp *)

Module BinParser.
Import Bin.

Definition HASH_SKIN_MESH_PROPERTIES : Z := 0x45ff5904.
Definition HASH_TEXTURE : Z := 0x3c6468f4.
Definition HASH_MATERIAL_OVERRIDE : Z := 0x24725910.
Definition HASH_SUBMESH : Z := 0xaad7612c.
Definition HASH_MATERIAL_LINK : Z := 0xd2e4d060.
Definition HASH_SAMPLER_VALUES : Z := 0x0a6f0eb5.
Definition HASH_PROP_NAME : Z := 0xb311d4ef.
Definition HASH_PROP_VALUE : Z := 0xf0a363e3.

Definition get_string (val : Value) : string :=
  match val with Text s => s | _ => "" end.

Definition get_link (val : Value) : Z :=
  match val with Link l => hash l | _ => 0 end.

Definition get_embed (val : Value) : option Embed :=
  match val with Object e => Some e | _ => None end.

Definition get_list (val : Value) : option (list Value) :=
  match val with ListA elems => Some elems | _ => None end.

Definition get_list2 (val : Value) : option (list Value) :=
  match val with ListB elems => Some elems | _ => None end.

(** The first field whose key has the given hash. *)
Fixpoint find_in (fields : list Field) (h : Z) : option Field :=
  match fields with
  | [] => None
  | field :: rest =>
      if hash (key_of field) =? h then Some field else find_in rest h
  end.

Definition find_field (embed : Embed) (h : Z) : option Field :=
  find_in (items_of embed) h.

(** The first loop: the index from entry hash to entry. *)
Definition index_entry (entries_map : gmap Z Embed) (pair : Value * Value)
  : gmap Z Embed :=
  match pair.1 with
  | HashId key_hash =>
      match pair.2 with
      | Object entry => <[hash key_hash := entry]> entries_map
      | _ => entries_map
      end
  | _ => entries_map
  end.

Definition build_entries_map (pairs : list (Value * Value)) : gmap Z Embed :=
  foldl index_entry ∅ pairs.

(** The lambda [process_prop]: [Some p_val] when it stores [p_val] in
    [tex_path] and returns true, [None] when it returns false. *)
Definition process_prop (item_val : Value) : option string :=
  match get_embed item_val with
  | None => None
  | Some prop_embed =>
      let p_name := match find_field prop_embed HASH_PROP_NAME with
                    | Some pn => get_string (value_of pn)
                    | None => ""
                    end in
      let p_val := match find_field prop_embed HASH_PROP_VALUE with
                   | Some pv => get_string (value_of pv)
                   | None => ""
                   end in
      if bool_decide (p_name = "Diffuse_Texture")
         && negb (bool_decide (p_val = ""))
      then Some p_val else None
  end.

(** [for (item : items) if (process_prop(item.value)) break;] *)
Fixpoint scan_props (elems : list Value) (tex_path : string) : string :=
  match elems with
  | [] => tex_path
  | item :: rest =>
      match process_prop item with
      | Some p_val => p_val
      | None => scan_props rest tex_path
      end
  end.

Definition follow_link (entries_map : gmap Z Embed) (linked_mat_hash : Z)
    (tex_path : string) : string :=
  match entries_map !! linked_mat_hash with
  | None => tex_path
  | Some mat_entry =>
      match find_field mat_entry HASH_SAMPLER_VALUES with
      | None => tex_path
      | Some props_field =>
          match get_list (value_of props_field) with
          | Some lst => scan_props lst tex_path
          | None =>
              match get_list2 (value_of props_field) with
              | Some lst2 => scan_props lst2 tex_path
              | None => tex_path
              end
          end
      end
  end.

(** What one override reads of its own fields. *)
Definition override_fields (override_embed : Embed) : string * string * Z :=
  let mat_name := match find_field override_embed HASH_SUBMESH with
                  | Some name_field => get_string (value_of name_field)
                  | None => ""
                  end in
  let tex_path := match find_field override_embed HASH_TEXTURE with
                  | Some tex_field => get_string (value_of tex_field)
                  | None => ""
                  end in
  let linked_mat_hash :=
    match find_field override_embed HASH_MATERIAL_LINK with
    | Some mat_field => get_link (value_of mat_field)
    | None => 0
    end in
  (mat_name, tex_path, linked_mat_hash).

(** The path of an override once the link has been followed, or not. *)
Definition resolve_path (entries_map : gmap Z Embed) (tex_path : string)
    (linked_mat_hash : Z) : string :=
  if bool_decide (tex_path = "") && negb (linked_mat_hash =? 0)
  then follow_link entries_map linked_mat_hash tex_path
  else tex_path.

Definition record_override (results : gmap string string)
    (mat_name tex_path : string) : gmap string string :=
  if negb (bool_decide (mat_name = "")) && negb (bool_decide (tex_path = ""))
  then <[mat_name := tex_path]> results
  else results.

(** The body of the loop over [override_list->items]. *)
Definition process_override (entries_map : gmap Z Embed)
    (results : gmap string string) (override_item : Value)
  : gmap string string :=
  match get_embed override_item with
  | None => results
  | Some override_embed =>
      let '(mat_name, tex_path, linked_mat_hash) :=
        override_fields override_embed in
      let tex_path := resolve_path entries_map tex_path linked_mat_hash in
      record_override results mat_name tex_path
  end.

Definition record_base (results : gmap string string) (tex : string)
  : gmap string string :=
  if negb (bool_decide (tex = "")) then <["BASE" := tex]> results else results.

(** What the second loop does with the skinMeshProperties object. *)
Definition process_skin_mesh (entries_map : gmap Z Embed)
    (results : gmap string string) (skin_mesh : Embed)
  : gmap string string :=
  let results :=
    match find_field skin_mesh HASH_TEXTURE with
    | Some tex_field => record_base results (get_string (value_of tex_field))
    | None => results
    end in
  match find_field skin_mesh HASH_MATERIAL_OVERRIDE with
  | None => results
  | Some mo_field =>
      match get_list (value_of mo_field) with
      | None => results
      | Some override_list =>
          foldl (process_override entries_map) results override_list
      end
  end.

(** The body of the second loop over [entries_map_val->items]. *)
Definition process_entry (entries_map : gmap Z Embed)
    (results : gmap string string) (pair : Value * Value)
  : gmap string string :=
  match get_embed pair.2 with
  | None => results
  | Some entry =>
      match find_field entry HASH_SKIN_MESH_PROPERTIES with
      | None => results
      | Some smp_field =>
          match get_embed (value_of smp_field) with
          | None => results
          | Some skin_mesh => process_skin_mesh entries_map results skin_mesh
          end
      end
  end.

(** The map [results] when the function leaves. *)
Definition collect (bin : Document) : gmap string string :=
  match sections bin !! "entries" with
  | None => ∅
  | Some (Mapping pairs) =>
      foldl (process_entry (build_entries_map pairs)) ∅ pairs
  | Some _ => ∅
  end.

Definition newline : string := String (Ascii.ascii_of_nat 10) EmptyString.

(** The order in which a range-for visits a [std::unordered_map].  The
    source does not fix it: it comes from the hash function and the bucket
    count of the C++ library, which is not part of [src/], and from the
    insertions that built the map.  It is therefore an argument of the
    output loop: [iterate results] is the sequence of pairs that one run
    visits.  Each run has its own [iterate]; two runs, or the two extractors
    on one document, need not visit equal maps in the same order. *)
Definition iteration : Type := gmap string string → list (string * string).

(** What the library does promise: every pair of the map is visited, once. *)
Definition visits_all (iterate : iteration) (results : gmap string string)
  : Prop :=
  iterate results ≡ₚ map_to_list results.

(** The output loop. *)
Definition serialize (iterate : iteration) (results : gmap string string)
  : string :=
  foldr (λ kv acc, kv.1 +:+ "=" +:+ kv.2 +:+ newline +:+ acc) ""
        (iterate results).

Definition extract_textures (iterate : iteration) (bin : Document) : string :=
  match sections bin !! "entries" with
  | None => ""
  | Some (Mapping pairs) =>
      serialize iterate
        (foldl (process_entry (build_entries_map pairs)) ∅ pairs)
  | Some _ => ""
  end.

End BinParser.

(** ** ritobin_dll.cpp

    The older extractor; [extract_textures] of lol_native.cpp is the same
    text.  Fields are read by loops over all the fields of an object, so the
    last field of a given hash is the one that counts. *)

Module RitobinDll.
Import Bin.

Definition HASH_SKIN_MESH_PROPERTIES : Z := 0x45ff5904.
Definition HASH_TEXTURE : Z := 0x3c6468f4.
Definition HASH_MATERIAL_OVERRIDE : Z := 0x24725910.
Definition HASH_NAME : Z := 0xaad7612c.
Definition HASH_MATERIAL_LINK : Z := 0xd2e4d060.
Definition HASH_PROPERTIES_LIST : Z := 0x0a6f0eb5.
Definition HASH_PROP_NAME : Z := 0xb311d4ef.
Definition HASH_PROP_VALUE : Z := 0xf0a363e3.

Definition get_string_value (val : Value) : string :=
  match val with Text s => s | _ => "" end.

Definition get_hash_value (val : Value) : Z :=
  match val with
  | HashId h => hash h
  | Link l => hash l
  | _ => 0
  end.

Fixpoint find_in (fields : list Field) (h : Z) : option Field :=
  match fields with
  | [] => None
  | field :: rest =>
      if hash (key_of field) =? h then Some field else find_in rest h
  end.

Definition find_field (embed : Embed) (h : Z) : option Field :=
  find_in (items_of embed) h.

Definition index_entry (entries_map : gmap Z Embed) (pair : Value * Value)
  : gmap Z Embed :=
  match pair.1, pair.2 with
  | HashId key_hash, Object entry => <[hash key_hash := entry]> entries_map
  | _, _ => entries_map
  end.

Definition build_entries_map (pairs : list (Value * Value)) : gmap Z Embed :=
  foldl index_entry ∅ pairs.

(** The loop over [prop_embed->items]: [p_name] and [p_val]. *)
Definition read_prop_field (acc : string * string) (pf : Field)
  : string * string :=
  let p_name := if hash (key_of pf) =? HASH_PROP_NAME
                then get_string_value (value_of pf) else acc.1 in
  let p_val := if hash (key_of pf) =? HASH_PROP_VALUE
               then get_string_value (value_of pf) else acc.2 in
  (p_name, p_val).

(** The loop over [props_list->items], left by [break] at the first
    match. *)
Fixpoint scan_props (elems : list Value) (tex_path : string) : string :=
  match elems with
  | [] => tex_path
  | prop_elem :: rest =>
      match prop_elem with
      | Object prop_embed =>
          let '(p_name, p_val) :=
            foldl read_prop_field ("", "") (items_of prop_embed) in
          if bool_decide (p_name = "Diffuse_Texture")
             && negb (bool_decide (p_val = ""))
          then p_val
          else scan_props rest tex_path
      | _ => scan_props rest tex_path
      end
  end.

Definition follow_link (entries_map : gmap Z Embed) (linked_mat_hash : Z)
    (tex_path : string) : string :=
  match entries_map !! linked_mat_hash with
  | None => tex_path
  | Some mat_entry =>
      match find_field mat_entry HASH_PROPERTIES_LIST with
      | None => tex_path
      | Some props_field =>
          match value_of props_field with
          | ListA props_list => scan_props props_list tex_path
          | _ => tex_path
          end
      end
  end.

(** The loop over [override_embed->items]: [mat_name], [tex_path] and
    [linked_mat_hash]. *)
Definition read_override_field (acc : string * string * Z) (prop : Field)
  : string * string * Z :=
  let '(mat_name, tex_path, linked_mat_hash) := acc in
  let mat_name := if hash (key_of prop) =? HASH_NAME
                  then get_string_value (value_of prop) else mat_name in
  let tex_path := if hash (key_of prop) =? HASH_TEXTURE
                  then get_string_value (value_of prop) else tex_path in
  let linked_mat_hash := if hash (key_of prop) =? HASH_MATERIAL_LINK
                         then get_hash_value (value_of prop)
                         else linked_mat_hash in
  (mat_name, tex_path, linked_mat_hash).

Definition override_fields (override_embed : Embed) : string * string * Z :=
  foldl read_override_field ("", "", 0) (items_of override_embed).

Definition resolve_path (entries_map : gmap Z Embed) (tex_path : string)
    (linked_mat_hash : Z) : string :=
  if bool_decide (tex_path = "") && negb (linked_mat_hash =? 0)
  then follow_link entries_map linked_mat_hash tex_path
  else tex_path.

Definition process_override (entries_map : gmap Z Embed)
    (results : gmap string string) (override_elem : Value)
  : gmap string string :=
  match override_elem with
  | Object override_embed =>
      let '(mat_name, tex_path, linked_mat_hash) :=
        override_fields override_embed in
      let tex_path := resolve_path entries_map tex_path linked_mat_hash in
      if negb (bool_decide (mat_name = ""))
         && negb (bool_decide (tex_path = ""))
      then <[mat_name := tex_path]> results
      else results
  | _ => results
  end.

(** The body of the loop over [skin_mesh->items]. *)
Definition process_sub_field (entries_map : gmap Z Embed)
    (results : gmap string string) (sub_field : Field)
  : gmap string string :=
  let results :=
    if hash (key_of sub_field) =? HASH_TEXTURE then
      let tex := get_string_value (value_of sub_field) in
      if negb (bool_decide (tex = "")) then <["BASE" := tex]> results
      else results
    else results in
  if hash (key_of sub_field) =? HASH_MATERIAL_OVERRIDE then
    match value_of sub_field with
    | ListA override_list =>
        foldl (process_override entries_map) results override_list
    | _ => results
    end
  else results.

(** The body of the loop over [entry->items]. *)
Definition process_field (entries_map : gmap Z Embed)
    (results : gmap string string) (field : Field) : gmap string string :=
  if negb (hash (key_of field) =? HASH_SKIN_MESH_PROPERTIES) then results
  else match value_of field with
       | Object skin_mesh =>
           foldl (process_sub_field entries_map) results (items_of skin_mesh)
       | _ => results
       end.

Definition process_entry (entries_map : gmap Z Embed)
    (results : gmap string string) (pair : Value * Value)
  : gmap string string :=
  match pair.2 with
  | Object entry => foldl (process_field entries_map) results (items_of entry)
  | _ => results
  end.

Definition collect (bin : Document) : gmap string string :=
  match sections bin !! "entries" with
  | None => ∅
  | Some (Mapping pairs) =>
      foldl (process_entry (build_entries_map pairs)) ∅ pairs
  | Some _ => ∅
  end.

(** The output loop is the one of bin_parser.cpp, over this function's own
    unordered map. *)
Definition extract_textures (iterate : BinParser.iteration) (bin : Document)
  : string :=
  match sections bin !! "entries" with
  | None => ""
  | Some (Mapping pairs) =>
      BinParser.serialize iterate
        (foldl (process_entry (build_entries_map pairs)) ∅ pairs)
  | Some _ => ""
  end.

End RitobinDll.

(** ** Notions used in the statements *)

Module ConvertSpec.
Import Tex Dds Ritoddstex.

(** The status codes of the header comment of [tex_to_dds_bytes]. *)
Definition OpenFailed : Z := -1.
Definition InvalidInput : Z := -2.
Definition UnsupportedFormat : Z := -3.
Definition AllocationFailure : Z := -4.

Definition recognized_formats : list Z :=
  [TEX_FORMAT_DXT1; TEX_FORMAT_DXT5; TEX_FORMAT_BGRA8; TEX_FORMAT_RGBA16].

(** The payload of a container: what follows the header. *)
Definition payload (raw : list byte) : list byte :=
  drop (Z.to_nat sizeof_TEX_HEADER) raw.

(** Everything the output holds before its payload: magic, primary header
    and, when needed, the extended header. *)
Definition dds_headers (calc : Z → Z → Z) (tex_header : TEX_HEADER)
    (pf : DDS_PIXELFORMAT) (need_dx10 : bool) : list byte :=
  DDS_MAGIC ++ bytes_of_DDS_HEADER (make_dds_header calc tex_header pf)
  ++ (if need_dx10 then dx10_header else []).

(** The bytes of the first [k] levels together. *)
Fixpoint mip_total (tex_header : TEX_HEADER) (k : nat) : Z :=
  match k with
  | O => 0
  | S k' => mip_total tex_header k' + mip_size tex_header (Z.of_nat k')
  end.

(** Level [j] of a payload that ends with level 0: the [mip_size] bytes in
    front of the levels [0 .. j - 1]. *)
Definition mip_chunk (tex_header : TEX_HEADER) (data : list byte) (j : nat)
  : list byte :=
  take (Z.to_nat (mip_size tex_header (Z.of_nat j)))
       (drop (Z.to_nat (Zlen data - mip_total tex_header (S j))) data).

Definition mip_chunks (tex_header : TEX_HEADER) (data : list byte) (k : nat)
  : list byte :=
  concat (mip_chunk tex_header data <$> seq 0 k).

(** The byte lengths of the levels [0 .. n - 1]. *)
Definition level_sizes (tex_header : TEX_HEADER) (n : nat) : list Z :=
  (λ j, mip_size tex_header (Z.of_nat j)) <$> seq 0 n.

(** The allocator never fails. *)
Definition always (malloc_ok : Z → bool) : Prop := ∀ n, malloc_ok n = true.

(** A file whose header is complete, carries the magic and names one of the
    four formats. *)
Definition valid_container (raw : list byte) (tex_header : TEX_HEADER)
    (pf : DDS_PIXELFORMAT) (need_dx10 : bool) : Prop :=
  Zlen raw < 2 ^ 31
  ∧ fread_TEX_HEADER raw = Some tex_header
  ∧ magic_differs tex_header = false
  ∧ select_pixelformat (tex_format tex_header) = Some (pf, need_dx10).

(** The input of the specification's reordering test: DXT1, 8 by 8, with
    mipmaps, a level 1 of eight bytes stored before a level 0 of eight
    bytes. *)
Definition header_8x8 (format has_mips : byte) : list byte :=
  [x54; x45; x58; x00;  x08; x00;  x08; x00;  x00; format; x00; has_mips].

(** What [fread_TEX_HEADER] reads of it. *)
Definition parsed_8x8 (format has_mips : byte) : TEX_HEADER :=
  mkTexHeader [x54; x45; x58; x00] (le16 x08 x00) (le16 x08 x00)
              (byte_to_Z x00) (byte_to_Z format) (byte_to_Z x00)
              (byte_to_Z has_mips).

Definition dxt1_pixelformat : DDS_PIXELFORMAT :=
  fourcc_pixelformat [x44; x58; x54; x31].

Definition bgra8_pixelformat : DDS_PIXELFORMAT :=
  mkPixelFormat sizeof_DDS_PIXELFORMAT DDS_RGBA [x00; x00; x00; x00]
                32 0x00ff0000 0x0000ff00 0x000000ff 0xff000000.

Definition two_level_input : list byte :=
  header_8x8 x0a x01 ++ replicate 8 x11 ++ replicate 8 x10.

(** The full chain of an 8 by 8 DXT1 image, smallest level first. *)
Definition chain_8x8 : list (list byte) :=
  [replicate 32 x10; replicate 8 x11; replicate 8 x12; replicate 8 x13].

Definition four_level_input : list byte :=
  header_8x8 x0a x01 ++ concat (reverse chain_8x8).

End ConvertSpec.

Module ExtractSpec.
Import Bin.

(** Shorthands to write documents down. *)
Definition fnv (h : Z) : FNV1a := mkFNV1a h None.
Definition field (h : Z) (v : Value) : Field := mkField (fnv h) v.
Definition object (fields : list Field) : Value :=
  Object (mkEmbed (fnv 0) fields).
Definition document (pairs : list (Value * Value)) : Document :=
  mkDocument {[ "entries" := Mapping pairs ]}.

(** A sampler element naming a diffuse texture. *)
Definition diffuse (path : string) : Value :=
  object [field BinParser.HASH_PROP_NAME (Text "Diffuse_Texture");
          field BinParser.HASH_PROP_VALUE (Text path)].

(** A skin entry whose MATERIAL_OVERRIDE field holds [overrides]. *)
Definition skin_entry (overrides : Value) : Value :=
  object [field BinParser.HASH_SKIN_MESH_PROPERTIES
            (object [field BinParser.HASH_MATERIAL_OVERRIDE overrides])].

(** An override "Body" without a direct texture, linked by [link]. *)
Definition linked_override (link : Value) : Value :=
  object [field BinParser.HASH_SUBMESH (Text "Body");
          field BinParser.HASH_MATERIAL_LINK link].

(** A material entry whose samplers are [samplers]. *)
Definition material (samplers : Value) : Value :=
  object [field BinParser.HASH_SAMPLER_VALUES samplers].

(** A skin whose override "Body" links to material 2, the samplers of which
    come in the given encoding. *)
Definition linked_document (samplers : Value) : Document :=
  document [(HashId (fnv 1), skin_entry (ListA [linked_override (Link (fnv 2))]));
            (HashId (fnv 2), material samplers)].

Definition two_samplers : list Value := [diffuse "a.tex"; diffuse "b.tex"].

(** An override "Body" with a direct texture, and a document whose skin
    holds the given override list. *)
Definition direct_override : Value :=
  object [field BinParser.HASH_SUBMESH (Text "Body");
          field BinParser.HASH_TEXTURE (Text "body.tex")].

Definition override_document (overrides : Value) : Document :=
  document [(HashId (fnv 1), skin_entry overrides)].

(** The override links to material 2 by a [HashId] instead of a [Link]. *)
Definition hashid_link_document : Document :=
  document [(HashId (fnv 1),
             skin_entry (ListA [linked_override (HashId (fnv 2))]));
            (HashId (fnv 2), material (ListA two_samplers))].

(** The override has two TEXTURE fields. *)
Definition duplicate_field_document : Document :=
  override_document
    (ListA [object [field BinParser.HASH_SUBMESH (Text "Body");
                    field BinParser.HASH_TEXTURE (Text "first.tex");
                    field BinParser.HASH_TEXTURE (Text "last.tex")]]).

(** An override named "BASE", in a skin whose overrides come before its
    own texture. *)
Definition base_named_document : Document :=
  document
    [(HashId (fnv 1),
      object
        [field BinParser.HASH_SKIN_MESH_PROPERTIES
           (object
              [field BinParser.HASH_MATERIAL_OVERRIDE
                 (ListA [object [field BinParser.HASH_SUBMESH (Text "BASE");
                                 field BinParser.HASH_TEXTURE
                                   (Text "over.tex")]]);
               field BinParser.HASH_TEXTURE (Text "base.tex")])])].

(** A skin with a base texture, a direct override and a linked one. *)
Definition plain_document : Document :=
  document
    [(HashId (fnv 1),
      object
        [field BinParser.HASH_SKIN_MESH_PROPERTIES
           (object
              [field BinParser.HASH_TEXTURE (Text "base.tex");
               field BinParser.HASH_MATERIAL_OVERRIDE
                 (ListA [direct_override;
                         object [field BinParser.HASH_SUBMESH (Text "Hair");
                                 field BinParser.HASH_MATERIAL_LINK
                                   (Link (fnv 2))]])])]);
     (HashId (fnv 2), material (ListA two_samplers))].

(** An override "Body" that holds the direct texture "direct.tex" between
    two empty TEXTURE fields, and a link to material 2; and the document of
    a skin with that override, material 2 having the two samplers. *)
Definition repeated_texture_override : Value :=
  object [field BinParser.HASH_SUBMESH (Text "Body");
          field BinParser.HASH_TEXTURE (Text "");
          field BinParser.HASH_TEXTURE (Text "direct.tex");
          field BinParser.HASH_TEXTURE (Text "");
          field BinParser.HASH_MATERIAL_LINK (Link (fnv 2))].

Definition repeated_texture_document : Document :=
  document [(HashId (fnv 1), skin_entry (ListA [repeated_texture_override]));
            (HashId (fnv 2), material (ListA two_samplers))].

(** The fields of an object whose key has the hash [h], in stored order. *)
Definition keyed (fields : list Field) (h : Z) : list Field :=
  filter (λ f, hash (key_of f) = h) fields.

(** The text a field holds: empty when there is no field, or when its
    value is not a [Text]. *)
Definition text_of (f : option Field) : string :=
  match f with
  | Some (mkField _ (Text s)) => s
  | _ => ""
  end.

(** The text of the first, and of the last, field keyed [h]. *)
Definition first_text (fields : list Field) (h : Z) : string :=
  text_of (head (keyed fields h)).

Definition last_text (fields : list Field) (h : Z) : string :=
  text_of (last (keyed fields h)).

(** How often a hash occurs among the fields of an object. *)
Definition count_key (fields : list Field) (h : Z) : nat :=
  length (filter (λ f, hash (key_of f) = h) fields).

Definition once (fields : list Field) (h : Z) : bool :=
  bool_decide (count_key fields h ≤ 1)%nat.

(** The value of the first field with hash [h], read by [read]. *)
Definition field_or {A} (fields : list Field) (h : Z) (read : Value → A)
    (default : A) : A :=
  match BinParser.find_in fields h with
  | Some f => read (value_of f)
  | None => default
  end.

(** The documents on which the two extractors are compared: no object
    that they read repeats one of the hashes they look for, a material link
    is not a [HashId], the samplers of a material are not a [ListB], and no
    override is named "BASE". *)
Definition prop_ok (v : Value) : bool :=
  match v with
  | Object p =>
      once (items_of p) BinParser.HASH_PROP_NAME
      && once (items_of p) BinParser.HASH_PROP_VALUE
  | _ => true
  end.

Definition material_ok (e : Embed) : bool :=
  match BinParser.find_field e BinParser.HASH_SAMPLER_VALUES with
  | Some f =>
      match value_of f with
      | ListA props => forallb prop_ok props
      | ListB _ => false
      | _ => true
      end
  | None => true
  end.

Definition override_ok (v : Value) : bool :=
  match v with
  | Object ov =>
      once (items_of ov) BinParser.HASH_SUBMESH
      && once (items_of ov) BinParser.HASH_TEXTURE
      && once (items_of ov) BinParser.HASH_MATERIAL_LINK
      && match BinParser.find_field ov BinParser.HASH_MATERIAL_LINK with
         | Some f => match value_of f with HashId _ => false | _ => true end
         | None => true
         end
      && negb (bool_decide ((BinParser.override_fields ov).1.1 = "BASE"))
  | _ => true
  end.

Definition skin_mesh_ok (sm : Embed) : bool :=
  once (items_of sm) BinParser.HASH_TEXTURE
  && once (items_of sm) BinParser.HASH_MATERIAL_OVERRIDE
  && match BinParser.find_field sm BinParser.HASH_MATERIAL_OVERRIDE with
     | Some f =>
         match value_of f with
         | ListA overrides => forallb override_ok overrides
         | _ => true
         end
     | None => true
     end.

Definition entry_ok (v : Value) : bool :=
  match v with
  | Object e =>
      once (items_of e) BinParser.HASH_SKIN_MESH_PROPERTIES
      && match BinParser.find_field e BinParser.HASH_SKIN_MESH_PROPERTIES with
         | Some f =>
             match value_of f with
             | Object sm => skin_mesh_ok sm
             | _ => true
             end
         | None => true
         end
      && material_ok e
  | _ => true
  end.

Definition comparable (bin : Document) : bool :=
  match sections bin !! "entries" with
  | Some (Mapping pairs) => forallb (λ pair, entry_ok pair.2) pairs
  | _ => true
  end.

End ExtractSpec.

(** ** lol_native.cpp: [tex_to_dds_bytes] written out

    The function as lol_native.cpp has it, with the helpers of that file:
    its [calc_mipmap_count], its [get_block_size], and the two [if]s that
    clamp the level dimensions.  The format switch, the headers and the
    constants are those of ritoddstex_dll.c, repeated there word for word. *)

Module LolNativeConvert.
Import Tex Dds.

Definition get_bytes_per_block (format : Z) : Z :=
  if format =? TEX_FORMAT_DXT1 then 8
  else if format =? TEX_FORMAT_DXT5 then 16
  else if format =? TEX_FORMAT_BGRA8 then 4
  else if format =? TEX_FORMAT_RGBA16 then 8
  else 0.

Definition mip_size (tex_header : TEX_HEADER) (i : Z) : Z :=
  let block_size := LolNative.get_block_size (tex_format tex_header) in
  let bytes_per_block := get_bytes_per_block (tex_format tex_header) in
  let mip_width := Z.shiftr (image_width tex_header) i in
  let mip_height := Z.shiftr (image_height tex_header) i in
  let mip_width := if mip_width <? 1 then 1 else mip_width in
  let mip_height := if mip_height <? 1 then 1 else mip_height in
  let block_width := u32 (mip_width + block_size - 1) / block_size in
  let block_height := u32 (mip_height + block_size - 1) / block_size in
  u32 (bytes_per_block * block_width * block_height).

Fixpoint copy_mips (tex_header : TEX_HEADER) (tex_data : list byte)
    (n : nat) (i : Z) (current_offset ptr : Z) (dds_data : buffer)
    : option buffer :=
  match n with
  | O => Some dds_data
  | S n' =>
      let size := mip_size tex_header i in
      let current_offset := s32 (current_offset - size) in
      if current_offset <? 0 then Some dds_data
      else
        d ← memcpy dds_data ptr tex_data current_offset size;
        copy_mips tex_header tex_data n' (i + 1) current_offset
                  (ptr + size) d
  end.

Definition tex_to_dds_bytes (malloc_ok : Z → bool)
    (tex_file : option (list byte)) : outcome :=
  match tex_file with
  | None => Failure (-1)
  | Some raw =>
    let file_size := u32 (Zlen raw) in
    match (if file_size <? sizeof_TEX_HEADER then None
           else fread_TEX_HEADER raw) with
    | None => Failure (-2)
    | Some tex_header =>
      if Ritoddstex.magic_differs tex_header then Failure (-2) else
      match Ritoddstex.select_pixelformat (tex_format tex_header) with
      | None => Failure (-3)
      | Some (pf, need_dx10) =>
        let dds_header :=
          Ritoddstex.make_dds_header LolNative.calc_mipmap_count
            tex_header pf in
        let mipmap_count :=
          Ritoddstex.mipmap_count_of LolNative.calc_mipmap_count tex_header in
        let tex_data_size := u32 (file_size - sizeof_TEX_HEADER) in
        let header_size :=
          u32 (4 + sizeof_DDS_HEADER + if need_dx10 then 20 else 0) in
        let total_size := u32 (header_size + tex_data_size) in
        if negb (malloc_ok total_size) then Failure (-4) else
        let dds_data := malloc total_size in
        copy dds_data ← memcpy dds_data 0 DDS_MAGIC 0 4;
        copy dds_data ← memcpy dds_data 4 (bytes_of_DDS_HEADER dds_header)
                               0 sizeof_DDS_HEADER;
        copy dds_data ← (if need_dx10
                         then memcpy dds_data (4 + sizeof_DDS_HEADER)
                                     Ritoddstex.dx10_header 0 20
                         else Some dds_data);
        if negb (malloc_ok tex_data_size) then Failure (-4) else
        let rest := drop (Z.to_nat sizeof_TEX_HEADER) raw in
        if negb (Zlen rest >=? tex_data_size) then Failure (-2) else
        let tex_data := take (Z.to_nat tex_data_size) rest in
        copy dds_data ←
          (if negb (has_mipmaps tex_header =? 0) && (mipmap_count >? 0)
           then copy_mips tex_header tex_data (Z.to_nat mipmap_count) 0
                          (s32 tex_data_size) header_size dds_data
           else memcpy dds_data header_size tex_data 0 tex_data_size);
        Success dds_data total_size
      end
    end
  end.

End LolNativeConvert.

(** ** [parse_bin_textures]

    The exported wrapper of bin_parser.cpp, ritobin_dll.cpp and
    lol_native.cpp: read the file, decode it, extract, and hand the text over
    as a buffer that ends with a NUL.  The decoder [ritobin::io::read_binary]
    is not part of [src/]; it is a parameter that returns its error text and
    the document it filled in. *)

Module ParseBin.
Import Bin.

Section Wrapper.
Variable read_binary : list byte → string * Document.
Variable extract_textures : Document → string.
Variable malloc_ok : Z → bool.

Definition parse_bin_textures (bin_file : option (list byte)) : outcome :=
  match bin_file with
  | None => Failure (-1)
  | Some buffer =>
      let '(error, bin) := read_binary buffer in
      if negb (bool_decide (error = "")) then Failure (-2) else
      let result := extract_textures bin in
      let result_size := u32 (Z.of_nat (String.length result)) in
      if negb (malloc_ok (u32 (result_size + 1))) then Failure (-4) else
      let result_data := malloc (u32 (result_size + 1)) in
      copy result_data ←
        memcpy result_data 0 (String.list_byte_of_string result ++ [x00]) 0
               (u32 (result_size + 1));
      Success result_data result_size
  end.
End Wrapper.

End ParseBin.

(** ** Further notions used in the statements *)

Module MoreSpec.
Import Tex Dds Ritoddstex ConvertSpec Bin.

(** How many levels, from level [i] on and among [n], fit one after the
    other into [room] bytes. *)
Fixpoint fitting_levels (tex_header : TEX_HEADER) (room : Z) (n i : nat)
  : nat :=
  match n with
  | O => O
  | S n' =>
      let size := mip_size tex_header (Z.of_nat i) in
      if size <=? room
      then S (fitting_levels tex_header (room - size) n' (S i))
      else O
  end.

(** A little-endian 32-bit field read back at an offset of a byte list. *)
Definition read_u32 (bytes : list byte) (offset : nat) : Z :=
  match drop offset bytes with
  | b0 :: b1 :: b2 :: b3 :: _ =>
      byte_to_Z b0 + 256 * byte_to_Z b1 + 65536 * byte_to_Z b2
      + 16777216 * byte_to_Z b3
  | _ => 0
  end.


(** The hashes under which the index holds an entry: the [HashId] keys of
    the pairs whose value is an object. *)
Definition indexed_hashes (pairs : list (Value * Value)) : list Z :=
  omap (λ pair : Value * Value,
          match pair.1, pair.2 with
          | HashId k, Object _ => Some (hash k)
          | _, _ => None
          end) pairs.

(** Results without an empty name or an empty path. *)
Definition clean (results : gmap string string) : Prop :=
  ∀ k v, results !! k = Some v → k ≠ "" ∧ v ≠ "".

(** The object of the last pair that the index files under [k]. *)
Fixpoint last_indexed (pairs : list (Value * Value)) (k : Z) : option Embed :=
  match pairs with
  | [] => None
  | entry :: rest =>
      match last_indexed rest k with
      | Some e => Some e
      | None =>
          match entry.1, entry.2 with
          | HashId key, Object e => if hash key =? k then Some e else None
          | _, _ => None
          end
      end
  end.

(** The length of the text written for a list of results. *)
Definition lines_length (entries : list (string * string)) : nat :=
  foldr (λ kv acc, String.length kv.1 + String.length kv.2 + 2 + acc)%nat
        0%nat entries.

(** An entry that has no skinMeshProperties object. *)
Definition no_skin_mesh (v : Value) : Prop :=
  match v with
  | Object entry =>
      Forall (λ f, hash (key_of f) = BinParser.HASH_SKIN_MESH_PROPERTIES →
                   BinParser.get_embed (value_of f) = None)
             (items_of entry)
  | _ => True
  end.

End MoreSpec.

(** * Properties of the converter *)

Module ConvertProofs.
Import Tex Dds Ritoddstex ConvertSpec.

Lemma u32_small z : 0 ≤ z < 2 ^ 32 → u32 z = z.
Proof. intros. unfold u32. by apply Z.mod_small. Qed.

Lemma u32_range z : 0 ≤ u32 z < 2 ^ 32.
Proof. unfold u32. apply Z.mod_pos_bound. lia. Qed.

Lemma s32_small z : 0 ≤ z < 2 ^ 31 → s32 z = z.
Proof.
  intros. unfold s32. rewrite Z.mod_small by lia.
  destruct (Z.ltb_spec z (2 ^ 31)); lia.
Qed.

Lemma Zlen_nonneg {A} (l : list A) : 0 ≤ Zlen l.
Proof. unfold Zlen. lia. Qed.

Lemma Zlen_app {A} (l k : list A) : Zlen (l ++ k) = Zlen l + Zlen k.
Proof. unfold Zlen. rewrite length_app. lia. Qed.

Lemma byte_to_Z_range b : 0 ≤ byte_to_Z b < 256.
Proof.
  unfold byte_to_Z. pose proof (Byte.to_N_bounded b) as H. lia.
Qed.

Lemma le16_range lo hi : 0 ≤ le16 lo hi < 2 ^ 16.
Proof.
  unfold le16. pose proof (byte_to_Z_range lo). pose proof (byte_to_Z_range hi).
  lia.
Qed.

#[global] Opaque byte_to_Z le16 Z_to_byte.

(** The header fields read from a file are in the range of their types. *)
Lemma fread_TEX_HEADER_range raw h :
  fread_TEX_HEADER raw = Some h →
  0 ≤ image_width h < 2 ^ 16 ∧ 0 ≤ image_height h < 2 ^ 16
  ∧ 0 ≤ tex_format h < 256 ∧ 0 ≤ has_mipmaps h < 256.
Proof.
  unfold fread_TEX_HEADER. intros H.
  do 12 (destruct raw as [|? raw]; [discriminate|]).
  injection H as <-. cbn [image_width image_height tex_format has_mipmaps].
  auto using le16_range, byte_to_Z_range.
Qed.

Lemma fread_TEX_HEADER_length raw :
  is_Some (fread_TEX_HEADER raw) ↔ 12 ≤ Zlen raw.
Proof.
  unfold fread_TEX_HEADER, Zlen. split.
  - intros [h H]. do 12 (destruct raw as [|? raw]; [discriminate|]).
    cbn [length]. lia.
  - intros H. do 12 (destruct raw as [|? raw]; [cbn [length] in H; lia|]).
    eauto.
Qed.

(** *** The level count *)

Lemma testbit_top k x :
  0 ≤ k → 0 ≤ x < 2 ^ (k + 1) →
  if Z.testbit x k then 2 ^ k ≤ x else x < 2 ^ k.
Proof.
  intros Hk Hx. pose proof (Z.testbit_spec' x k Hk) as Hb.
  assert (0 < 2 ^ k) by (apply Z.pow_pos_nonneg; lia).
  assert (0 ≤ x / 2 ^ k < 2) as Hq.
  { split; [apply Z.div_pos; lia|].
    apply Z.div_lt_upper_bound; [lia|]. rewrite Z.pow_add_r in Hx; lia. }
  pose proof (Z.mul_div_le x (2 ^ k)) as Hle.
  pose proof (Z.mul_succ_div_gt x (2 ^ k)) as Hgt.
  destruct (Z.testbit x k); simpl in Hb.
  - assert (x / 2 ^ k = 1) as Hone.
    { destruct (Z.eq_dec (x / 2 ^ k) 0) as [E|E]; [rewrite E in Hb; done|lia]. }
    rewrite Hone in Hle. lia.
  - assert (x / 2 ^ k = 0) as Hzero.
    { destruct (Z.eq_dec (x / 2 ^ k) 1) as [E|E]; [rewrite E in Hb; done|lia]. }
    rewrite Hzero in Hgt. lia.
Qed.

Lemma bit_scan_from_log2 n x :
  0 < x < 2 ^ Z.of_nat n → bit_scan_from n x = Some (Z.log2 x).
Proof.
  induction n as [|n IH]; intros Hx.
  - simpl in Hx. lia.
  - cbn [bit_scan_from].
    pose proof (testbit_top (Z.of_nat n) x) as Ht.
    replace (Z.of_nat n + 1) with (Z.of_nat (S n)) in Ht by lia.
    specialize (Ht ltac:(lia) ltac:(lia)).
    destruct (Z.testbit x (Z.of_nat n)).
    + f_equal. symmetry. apply Z.log2_unique; [lia|].
      replace (Z.of_nat n + 1) with (Z.of_nat (S n)) by lia. lia.
    + apply IH. lia.
Qed.

Lemma bit_scan_from_zero n : bit_scan_from n 0 = None.
Proof. induction n as [|n IH]; [done|]. cbn [bit_scan_from]. by rewrite Z.bits_0. Qed.

Lemma MAX_max a b : MAX a b = Z.max a b.
Proof. unfold MAX. destruct (Z.gtb_spec a b); lia. Qed.

Lemma calc_mipmap_count_log2 w h :
  0 ≤ w < 2 ^ 32 → 0 ≤ h < 2 ^ 32 → 1 ≤ Z.max w h →
  calc_mipmap_count w h = Z.log2 (Z.max w h) + 1.
Proof.
  intros Hw Hh Hm. unfold calc_mipmap_count, clz32, _BitScanReverse.
  rewrite MAX_max, bit_scan_from_log2 by (change (Z.of_nat 32) with 32; lia).
  lia.
Qed.

Lemma calc_mipmap_count_zero : calc_mipmap_count 0 0 = 0.
Proof. reflexivity. Qed.

Lemma count_shifts_log2 rounds x count :
  0 ≤ x < 2 ^ Z.of_nat rounds → 0 ≤ count →
  count + Z.of_nat rounds < 2 ^ 32 →
  LolNative.count_shifts rounds x count
  = count + if x =? 0 then 0 else Z.log2 x + 1.
Proof.
  revert x count. induction rounds as [|r IH]; intros x count Hx Hc Hb.
  - simpl in Hx. assert (x = 0) as -> by lia. simpl. lia.
  - cbn [LolNative.count_shifts]. destruct (Z.gtb_spec x 0) as [Hpos|Hz].
    + rewrite u32_small by lia.
      assert (0 ≤ Z.shiftr x 1 < 2 ^ Z.of_nat r) as Hs.
      { rewrite Z.shiftr_div_pow2 by lia. change (2 ^ 1) with 2.
        replace (Z.of_nat (S r)) with (Z.of_nat r + 1) in Hx by lia.
        rewrite Z.pow_add_r in Hx by lia. change (2 ^ 1) with 2 in Hx.
        split; [apply Z.div_pos; lia|apply Z.div_lt_upper_bound; lia]. }
      rewrite IH by lia.
      destruct (Z.eqb_spec x 0) as [|_]; [lia|].
      destruct (Z.eqb_spec (Z.shiftr x 1) 0) as [E|E].
      * assert (x = 1) as ->; [|simpl; lia].
        rewrite Z.shiftr_div_pow2 in E by lia. change (2 ^ 1) with 2 in E.
        pose proof (Z.mul_succ_div_gt x 2). lia.
      * assert (2 ≤ x).
        { destruct (Z.eq_dec x 1) as [->|]; [done|lia]. }
        rewrite Z.log2_shiftr by lia.
        pose proof (Z.log2_le_mono 2 x). change (Z.log2 2) with 1 in *. lia.
    + assert (x = 0) as -> by lia. simpl. lia.
Qed.

Lemma lol_calc_mipmap_count_log2 w h :
  0 ≤ w < 2 ^ 32 → 0 ≤ h < 2 ^ 32 → 1 ≤ Z.max w h →
  LolNative.calc_mipmap_count w h = Z.log2 (Z.max w h) + 1.
Proof.
  intros Hw Hh Hm. unfold LolNative.calc_mipmap_count.
  replace (if w >? h then w else h) with (Z.max w h)
    by (destruct (Z.gtb_spec w h); lia).
  rewrite count_shifts_log2 by (change (Z.of_nat 32) with 32; lia).
  destruct (Z.eqb_spec (Z.max w h) 0); lia.
Qed.

(** C5.  With [has_mipmaps] set and a largest dimension of at least one, the
    level count of both converters is [floor (log2 (max width height)) + 1];
    with [has_mipmaps] clear the count is zero and the primary header has a
    zero [dwMipMapCount] and neither mipmap flag. *)
Theorem level_count_log2 raw h pf :
  fread_TEX_HEADER raw = Some h →
  (has_mipmaps h ≠ 0 → 1 ≤ Z.max (image_width h) (image_height h) →
     mipmap_count_of calc_mipmap_count h
       = Z.log2 (Z.max (image_width h) (image_height h)) + 1
     ∧ mipmap_count_of LolNative.calc_mipmap_count h
       = Z.log2 (Z.max (image_width h) (image_height h)) + 1)
  ∧ (has_mipmaps h = 0 → ∀ calc,
     mipmap_count_of calc h = 0
     ∧ dwMipMapCount (make_dds_header calc h pf) = 0
     ∧ Z.land (dwFlags (make_dds_header calc h pf)) DDS_HEADER_FLAGS_MIPMAP = 0
     ∧ Z.land (dwCaps (make_dds_header calc h pf)) DDS_SURFACE_FLAGS_MIPMAP
       = 0).
Proof.
  intros Hread. destruct (fread_TEX_HEADER_range _ _ Hread) as (Hw & Hh & _).
  split.
  - intros Hm Hmax. unfold mipmap_count_of.
    destruct (Z.eqb_spec (has_mipmaps h) 0); [done|].
    split; [apply calc_mipmap_count_log2|apply lol_calc_mipmap_count_log2];
      lia.
  - intros Hm calc. unfold make_dds_header, mipmap_count_of. rewrite Hm.
    by cbn.
Qed.

Lemma level_count_log2_witness :
  fread_TEX_HEADER (header_8x8 x0a x01) = Some (parsed_8x8 x0a x01)
  ∧ mipmap_count_of calc_mipmap_count (parsed_8x8 x0a x01) = 4.
Proof.
  split; [reflexivity|].
  pose proof (level_count_log2 (header_8x8 x0a x01) (parsed_8x8 x0a x01)
                dxt1_pixelformat eq_refl) as [H _].
  destruct H as [H _]; [by vm_compute|by vm_compute|].
  rewrite H. by vm_compute.
Defined.

(** *** Copies *)

Lemma memcpy_length dst d src s n dst' :
  memcpy dst d src s n = Some dst' → length dst' = length dst.
Proof.
  unfold memcpy, Zlen. case_bool_decide as Hb; [|done].
  intros [= <-]. destruct Hb as (Hn & Hd & Hdn & Hs & Hsn).
  rewrite !length_app, length_fmap, length_take, length_take, !length_drop.
  lia.
Qed.

(** A copy to the start of the unwritten part of a buffer. *)
Lemma memcpy_into_hole (pre : list byte) (hole : buffer) src s n dst d :
  dst = (Some <$> pre) ++ hole → d = Zlen pre →
  0 ≤ n → 0 ≤ s → s + n ≤ Zlen src → n ≤ Zlen hole →
  memcpy dst d src s n
  = Some ((Some <$> (pre ++ take (Z.to_nat n) (drop (Z.to_nat s) src)))
          ++ drop (Z.to_nat n) hole).
Proof.
  intros -> -> Hn Hs Hsn Hh. unfold memcpy.
  rewrite bool_decide_eq_true_2.
  2: { rewrite Zlen_app. unfold Zlen in *. rewrite length_fmap. lia. }
  f_equal. unfold Zlen. rewrite Nat2Z.id.
  rewrite take_app_length' by (by rewrite length_fmap).
  rewrite fmap_app, <- app_assoc. do 2 f_equal.
  rewrite Z2Nat.inj_add, Nat2Z.id by lia.
  rewrite drop_app_add' by (by rewrite length_fmap). done.
Qed.

Lemma memcpy_append (pre src : list byte) (k : nat) dst d n :
  dst = (Some <$> pre) ++ replicate k None → d = Zlen pre → n = Zlen src →
  (length src ≤ k)%nat →
  memcpy dst d src 0 n
  = Some ((Some <$> (pre ++ src)) ++ replicate (k - length src) None).
Proof.
  intros -> -> -> Hk.
  rewrite (memcpy_into_hole pre (replicate k None)); try done;
    unfold Zlen; rewrite ?length_replicate; try lia.
  rewrite Nat2Z.id, drop_0, firstn_all, drop_replicate. done.
Qed.

Lemma mip_size_range h i : 0 ≤ mip_size h i < 2 ^ 32.
Proof. apply u32_range. Qed.

Lemma mip_total_S h k :
  mip_total h (S k) = mip_total h k + mip_size h (Z.of_nat k).
Proof. done. Qed.

Lemma mip_total_mono h k m : (k ≤ m)%nat → mip_total h k ≤ mip_total h m.
Proof.
  induction 1 as [|m _ IH]; [lia|].
  rewrite mip_total_S. pose proof (mip_size_range h (Z.of_nat m)). lia.
Qed.

Lemma mip_total_nonneg h k : 0 ≤ mip_total h k.
Proof. apply (mip_total_mono h 0 k). lia. Qed.

Lemma mip_chunk_length h data j :
  mip_total h (S j) ≤ Zlen data →
  Zlen (mip_chunk h data j) = mip_size h (Z.of_nat j).
Proof.
  intros Hfit. unfold mip_chunk, Zlen in *.
  rewrite length_take, length_drop.
  pose proof (mip_size_range h (Z.of_nat j)).
  pose proof (mip_total_nonneg h j). rewrite mip_total_S in *. lia.
Qed.

(** The loop, started at level [i] with the levels below [i] written: when
    the next [m] levels fit in front of the cursor and the loop then ends or
    finds a negative cursor, exactly these [m] levels are appended. *)
Lemma copy_mips_spec h (data : list byte) :
  Zlen data < 2 ^ 31 →
  ∀ (m n i : nat) (pre : list byte) (hole : buffer),
    (m ≤ n)%nat →
    mip_total h (i + m) ≤ Zlen data →
    m = n ∨ s32 (Zlen data - mip_total h (i + m)
                 - mip_size h (Z.of_nat (i + m))) < 0 →
    Zlen hole = Zlen data - mip_total h i →
    copy_mips h data n (Z.of_nat i) (Zlen data - mip_total h i) (Zlen pre)
              ((Some <$> pre) ++ hole)
    = Some ((Some <$> (pre ++ concat (mip_chunk h data <$> seq i m)))
            ++ drop (Z.to_nat (mip_total h (i + m) - mip_total h i)) hole).
Proof.
  intros Hlen. induction m as [|m IH]; intros n i pre hole Hmn Hfit Hend Hhole.
  - rewrite Nat.add_0_r in *. rewrite Z.sub_diag. cbn [seq fmap list_fmap concat].
    rewrite app_nil_r, drop_0.
    destruct n as [|n]; [done|]. destruct Hend as [|Hneg]; [done|].
    cbn [copy_mips]. by destruct (Z.ltb_spec (s32 (Zlen data - mip_total h i
      - mip_size h (Z.of_nat i))) 0); [|lia].
  - destruct n as [|n]; [lia|]. cbn [copy_mips].
    pose proof (mip_size_range h (Z.of_nat i)) as Hsz.
    pose proof (mip_total_mono h (S i) (i + S m) ltac:(lia)) as Hmono.
    pose proof (mip_total_nonneg h i) as Hnn.
    rewrite mip_total_S in Hmono.
    rewrite s32_small by lia.
    destruct (Z.ltb_spec (Zlen data - mip_total h i - mip_size h (Z.of_nat i)) 0);
      [lia|].
    erewrite (memcpy_into_hole pre hole); [|done|done|lia..].
    cbn [mbind option_bind].
    replace (Zlen data - mip_total h i - mip_size h (Z.of_nat i))
      with (Zlen data - mip_total h (S i)) by (rewrite mip_total_S; lia).
    fold (mip_chunk h data i).
    replace (Z.of_nat i + 1) with (Z.of_nat (S i)) by lia.
    replace (Zlen pre + mip_size h (Z.of_nat i))
      with (Zlen (pre ++ mip_chunk h data i)).
    2: { rewrite Zlen_app, mip_chunk_length; [done|].
         rewrite mip_total_S. lia. }
    replace (i + S m)%nat with (S i + m)%nat in * by lia.
    rewrite (IH n (S i)); [| lia | done | | ].
    + cbn [seq fmap list_fmap concat]. rewrite <- !app_assoc, drop_drop.
      do 3 f_equal. rewrite mip_total_S.
      pose proof (mip_total_mono h (S i) (S i + m) ltac:(lia)) as Hm2.
      rewrite mip_total_S in Hm2. lia.
    + destruct Hend as [|Hneg]; [left; lia|by right].
    + unfold Zlen in *. rewrite length_drop, mip_total_S. lia.
Qed.

(** *** The conversion of a valid container *)

Ltac case_format :=
  match goal with
  | |- context [?format =? ?code] =>
      destruct (Z.eqb_spec format code) as [->|?]
  end.

Lemma select_pixelformat_cases format pf need_dx10 :
  select_pixelformat format = Some (pf, need_dx10) →
  format ∈ recognized_formats ∧ length (dwFourCC pf) = 4%nat.
Proof.
  unfold select_pixelformat, recognized_formats. rewrite list_elem_of_In.
  repeat (case_format; [intros [= <- <-]; split; [simpl; tauto|done]|]).
  done.
Qed.

Lemma select_pixelformat_none format :
  select_pixelformat format = None ↔ format ∉ recognized_formats.
Proof.
  unfold select_pixelformat, recognized_formats. rewrite list_elem_of_In.
  repeat (case_format; [split; [done|intros []; simpl; tauto]|]).
  split; [|done]. intros _ [?|[?|[?|[?|[]]]]]; congruence.
Qed.

Lemma bytes_of_DDS_HEADER_length calc h pf :
  length (dwFourCC pf) = 4%nat →
  length (bytes_of_DDS_HEADER (make_dds_header calc h pf)) = 124%nat.
Proof.
  intros Hcc. unfold bytes_of_DDS_HEADER, bytes_of_DDS_PIXELFORMAT.
  rewrite !length_app. cbn [ddspf make_dds_header dwReserved1].
  by rewrite Hcc.
Qed.

Lemma dds_headers_length calc h pf need_dx10 :
  length (dwFourCC pf) = 4%nat →
  Zlen (dds_headers calc h pf need_dx10)
  = 4 + sizeof_DDS_HEADER + if need_dx10 then 20 else 0.
Proof.
  intros Hcc. unfold Zlen, dds_headers.
  rewrite !length_app, bytes_of_DDS_HEADER_length by done.
  by destruct need_dx10.
Qed.

Lemma valid_payload_length raw h pf need_dx10 :
  valid_container raw h pf need_dx10 →
  Zlen (payload raw) = Zlen raw - 12 ∧ 12 ≤ Zlen raw.
Proof.
  intros (_ & Hread & _). assert (12 ≤ Zlen raw) as H12.
  { apply fread_TEX_HEADER_length. eauto. }
  split; [|done]. unfold payload, Zlen in *. rewrite length_drop.
  change (Z.to_nat sizeof_TEX_HEADER) with 12%nat. lia.
Qed.

(** On a valid container the function comes down to its last step: the
    headers are in place, the payload part of the output is unwritten, and
    the levels or the whole payload are copied. *)
Lemma tex_to_dds_bytes_valid calc malloc_ok raw h pf need_dx10 :
  always malloc_ok → valid_container raw h pf need_dx10 →
  let headers := dds_headers calc h pf need_dx10 in
  let dds_data := (Some <$> headers) ++ replicate (length (payload raw)) None in
  tex_to_dds_bytes calc malloc_ok (Some raw)
  = or_fault
      (if negb (has_mipmaps h =? 0) && (mipmap_count_of calc h >? 0)
       then copy_mips h (payload raw) (Z.to_nat (mipmap_count_of calc h)) 0
                      (Zlen (payload raw)) (Zlen headers) dds_data
       else memcpy dds_data (Zlen headers) (payload raw) 0
                   (Zlen (payload raw)))
      (λ d, Success d (Zlen headers + Zlen (payload raw))).
Proof.
  intros Hmalloc Hvalid headers dds_data.
  destruct (valid_payload_length _ _ _ _ Hvalid) as [Hpay H12].
  destruct Hvalid as (Hlen & Hread & Hmagic & Hsel).
  destruct (select_pixelformat_cases _ _ _ Hsel) as [_ Hcc].
  pose proof (dds_headers_length calc h pf need_dx10 Hcc) as Hhl.
  fold headers in Hhl.
  assert (Zlen headers = 128 ∨ Zlen headers = 148) as Hh.
  { rewrite Hhl. destruct need_dx10; [right|left]; done. }
  unfold tex_to_dds_bytes.
  rewrite (u32_small (Zlen raw)) by (pose proof (Zlen_nonneg raw); lia).
  destruct (Z.ltb_spec (Zlen raw) sizeof_TEX_HEADER) as [Hlt|_];
    [unfold sizeof_TEX_HEADER in Hlt; lia|].
  rewrite Hread, Hmagic, Hsel.
  rewrite (u32_small (Zlen raw - _)) by (unfold sizeof_TEX_HEADER; lia).
  rewrite <- Hhl.
  rewrite (u32_small (Zlen headers)) by lia.
  replace (Zlen raw - sizeof_TEX_HEADER) with (Zlen (payload raw))
    by (unfold sizeof_TEX_HEADER; lia).
  rewrite (u32_small (_ + _)) by lia.
  rewrite !Hmalloc. cbn [negb].
  assert (malloc (Zlen headers + Zlen (payload raw))
          = (Some <$> []) ++ replicate (length headers + length (payload raw)) None)
    as ->.
  { unfold malloc, Zlen. by rewrite <- Nat2Z.inj_add, Nat2Z.id. }
  assert (length headers
          = (4 + (124 + if need_dx10 then 20 else 0))%nat) as Hnat.
  { unfold Zlen in Hhl. unfold sizeof_DDS_HEADER in Hhl.
    destruct need_dx10; lia. }
  assert (length (bytes_of_DDS_HEADER (make_dds_header calc h pf)) = 124%nat)
    as Hbl.
  { by apply bytes_of_DDS_HEADER_length. }
  erewrite (memcpy_append [] DDS_MAGIC); [|done|done|done|simpl; lia].
  cbn [or_fault app].
  erewrite (memcpy_append DDS_MAGIC (bytes_of_DDS_HEADER _));
    [|done|done|unfold Zlen; by rewrite Hbl|rewrite Hbl, Hnat; simpl; lia].
  cbn [or_fault].
  match goal with
  | |- context [or_fault (if need_dx10 then ?a else ?b)] =>
      assert ((if need_dx10 then a else b) = Some dds_data) as ->
  end.
  { rewrite Hbl, Hnat. unfold dds_data, headers, dds_headers.
    destruct need_dx10.
    - erewrite (memcpy_append (DDS_MAGIC ++ _) dx10_header);
        [|done| |done|simpl; lia].
      + rewrite <- app_assoc.
        replace (4 + (124 + 20) + length (payload raw) - length DDS_MAGIC
                 - 124 - length dx10_header)%nat
          with (length (payload raw)) by (simpl; lia).
        done.
      + rewrite Zlen_app. unfold Zlen. by rewrite Hbl.
    - rewrite app_nil_r.
      replace (4 + (124 + 0) + length (payload raw) - length DDS_MAGIC - 124)%nat
        with (length (payload raw)) by (simpl; lia).
      done. }
  cbn [or_fault].
  assert (drop (Z.to_nat sizeof_TEX_HEADER) raw = payload raw) as -> by done.
  destruct (Z.geb_spec (Zlen (payload raw)) (Zlen (payload raw))); [|lia].
  cbn [negb].
  assert (take (Z.to_nat (Zlen (payload raw))) (payload raw) = payload raw)
    as ->.
  { unfold Zlen. by rewrite Nat2Z.id, firstn_all. }
  rewrite (s32_small (Zlen (payload raw))) by lia.
  done.
Qed.

(** *** A payload that holds the whole chain *)

Lemma level_sizes_lookup h n j :
  (j < n)%nat → level_sizes h n !! j = Some (mip_size h (Z.of_nat j)).
Proof.
  intros Hj. unfold level_sizes.
  by rewrite list_lookup_fmap, lookup_seq_lt.
Qed.

Lemma level_sizes_length h n : length (level_sizes h n) = n.
Proof. unfold level_sizes. by rewrite length_fmap, length_seq. Qed.

Lemma concat_reverse_length {A} (l : list (list A)) :
  length (concat (reverse l)) = length (concat l).
Proof.
  induction l as [|x l IH]; [done|].
  rewrite reverse_cons, concat_app, length_app, IH. cbn [concat].
  rewrite !length_app. simpl. lia.
Qed.

Section Chain.
Context (h : TEX_HEADER) (levels : list (list byte)) (n : nat).
Hypothesis Hsizes : Zlen <$> levels = level_sizes h n.

Lemma chain_length : length levels = n.
Proof.
  rewrite <- (length_fmap Zlen levels), Hsizes. apply level_sizes_length.
Qed.

Lemma chain_level_size j lv :
  levels !! j = Some lv → Zlen lv = mip_size h (Z.of_nat j).
Proof.
  intros Hj. assert ((Zlen <$> levels) !! j = Some (Zlen lv)) as Hl.
  { by rewrite list_lookup_fmap, Hj. }
  rewrite Hsizes, level_sizes_lookup in Hl; [congruence|].
  rewrite <- chain_length. by eapply lookup_lt_Some.
Qed.

Lemma chain_total k :
  (k ≤ n)%nat → mip_total h k = Zlen (concat (take k levels)).
Proof.
  induction k as [|k IH]; intros Hk; [done|].
  destruct (lookup_lt_is_Some_2 levels k) as [lv Hlv];
    [rewrite chain_length; lia|].
  rewrite mip_total_S, IH by lia.
  rewrite (take_S_r _ _ _ Hlv), concat_app, Zlen_app.
  rewrite <- (chain_level_size k lv Hlv). simpl. by rewrite app_nil_r.
Qed.

Lemma chain_chunk j lv :
  levels !! j = Some lv → mip_chunk h (concat (reverse levels)) j = lv.
Proof.
  intros Hj. pose proof (lookup_lt_Some _ _ _ Hj) as Hlt.
  rewrite chain_length in Hlt.
  pose proof (chain_total (S j) ltac:(lia)) as HS.
  rewrite (take_S_r _ _ _ Hj), concat_app, Zlen_app in HS.
  cbn [concat] in HS. rewrite app_nil_r in HS.
  set (A := concat (reverse (drop (S j) levels))).
  set (B := concat (reverse (take j levels))).
  assert (concat (reverse levels) = A ++ lv ++ B) as ->.
  { unfold A, B. rewrite <- (take_drop_middle levels j lv Hj) at 1.
    rewrite reverse_app, reverse_cons, <- app_assoc, !concat_app.
    cbn [concat]. by rewrite app_nil_r. }
  unfold mip_chunk. rewrite HS, <- (chain_level_size j lv Hj).
  assert (Zlen (A ++ lv ++ B) - (Zlen (concat (take j levels)) + Zlen lv)
          = Zlen A) as ->.
  { rewrite !Zlen_app. unfold B, Zlen. rewrite concat_reverse_length. lia. }
  unfold Zlen. rewrite !Nat2Z.id, drop_app_length, take_app_length. done.
Qed.

Lemma chain_chunks : mip_chunks h (concat (reverse levels)) n = concat levels.
Proof.
  unfold mip_chunks. f_equal. apply list_eq. intros j.
  rewrite list_lookup_fmap.
  destruct (levels !! j) as [lv|] eqn:Hj.
  - pose proof (lookup_lt_Some _ _ _ Hj) as Hlt. rewrite chain_length in Hlt.
    rewrite lookup_seq_lt by done. simpl. f_equal. by apply chain_chunk.
  - apply lookup_ge_None in Hj. rewrite chain_length in Hj.
    by rewrite lookup_seq_ge.
Qed.

Lemma chain_total_all :
  mip_total h n = Zlen (concat (reverse levels)).
Proof.
  rewrite chain_total by done. unfold Zlen.
  rewrite concat_reverse_length, <- chain_length, firstn_all. done.
Qed.
End Chain.

(** The loop on a valid container with mipmaps: [m] levels fit, then the
    loop ends or its cursor is negative. *)
Lemma tex_to_dds_bytes_levels calc malloc_ok raw h pf need_dx10 (m : nat) :
  always malloc_ok → valid_container raw h pf need_dx10 →
  has_mipmaps h ≠ 0 →
  (m ≤ Z.to_nat (mipmap_count_of calc h))%nat →
  (0 < Z.to_nat (mipmap_count_of calc h))%nat →
  mip_total h m ≤ Zlen (payload raw) →
  m = Z.to_nat (mipmap_count_of calc h)
  ∨ s32 (Zlen (payload raw) - mip_total h m - mip_size h (Z.of_nat m)) < 0 →
  tex_to_dds_bytes calc malloc_ok (Some raw)
  = Success
      ((Some <$> (dds_headers calc h pf need_dx10
                  ++ mip_chunks h (payload raw) m))
       ++ replicate (Z.to_nat (Zlen (payload raw) - mip_total h m)) None)
      (Zlen (dds_headers calc h pf need_dx10) + Zlen (payload raw)).
Proof.
  intros Hmalloc Hvalid Hmip Hm Hpos Hfit Hend.
  rewrite (tex_to_dds_bytes_valid _ _ _ _ _ _ Hmalloc Hvalid).
  destruct (valid_payload_length _ _ _ _ Hvalid) as [Hpay H12].
  destruct Hvalid as (Hlen & _).
  destruct (Z.eqb_spec (has_mipmaps h) 0) as [|_]; [done|].
  destruct (Z.gtb_spec (mipmap_count_of calc h) 0) as [_|]; [|lia].
  cbn [negb andb].
  pose proof (copy_mips_spec h (payload raw) ltac:(lia) m
                (Z.to_nat (mipmap_count_of calc h)) 0
                (dds_headers calc h pf need_dx10)
                (replicate (length (payload raw)) None)) as Hloop.
  cbn [mip_total Nat.add] in Hloop. change (Z.of_nat 0) with 0 in Hloop.
  rewrite !Z.sub_0_r in Hloop.
  rewrite Hloop; [| done | done | done | ].
  - cbn [or_fault]. do 2 f_equal.
    rewrite drop_replicate. f_equal.
    pose proof (mip_total_nonneg h m). unfold Zlen in *. lia.
  - unfold Zlen. by rewrite length_replicate.
Qed.

(** C8.  With [has_mipmaps = 0] the output is the headers followed by the
    input payload, byte for byte and in the same order; the payload part has
    the length of the input payload. *)
Theorem no_mipmaps_payload_verbatim calc malloc_ok raw h pf need_dx10 :
  always malloc_ok → valid_container raw h pf need_dx10 →
  has_mipmaps h = 0 →
  tex_to_dds_bytes calc malloc_ok (Some raw)
  = Success (Some <$> (dds_headers calc h pf need_dx10 ++ payload raw))
            (Zlen (dds_headers calc h pf need_dx10) + Zlen (payload raw)).
Proof.
  intros Hmalloc Hvalid Hmip.
  rewrite (tex_to_dds_bytes_valid _ _ _ _ _ _ Hmalloc Hvalid).
  rewrite Hmip. cbn [Z.eqb negb andb].
  erewrite (memcpy_append _ (payload raw)); [|done..].
  cbn [or_fault]. by rewrite Nat.sub_diag, app_nil_r.
Qed.

Lemma no_mipmaps_payload_verbatim_witness :
  convert (λ _, true) (Some (header_8x8 x14 x00 ++ [x01; x02; x03; x04]))
  = Success
      (Some <$> (dds_headers calc_mipmap_count (parsed_8x8 x14 x00)
                   bgra8_pixelformat false
                 ++ [x01; x02; x03; x04]))
      132.
Proof.
  apply (no_mipmaps_payload_verbatim calc_mipmap_count (λ _, true)
           (header_8x8 x14 x00 ++ [x01; x02; x03; x04])
           (parsed_8x8 x14 x00) bgra8_pixelformat false).
  - intros n. reflexivity.
  - repeat split; vm_compute; reflexivity.
  - vm_compute. reflexivity.
Defined.

(** C1, as the code has it.  When the payload is the whole chain of the
    [mipmap_count] levels the code computes, each of its computed size and
    the smallest stored first, the output payload is level 0, level 1, and so
    on in increasing order.  For an 8 by 8 DXT1 image that chain has four
    levels of 32, 8, 8 and 8 bytes. *)
Theorem mip_chain_reordered calc malloc_ok raw h pf need_dx10 levels :
  always malloc_ok → valid_container raw h pf need_dx10 →
  has_mipmaps h ≠ 0 →
  Zlen <$> levels = level_sizes h (Z.to_nat (mipmap_count_of calc h)) →
  payload raw = concat (reverse levels) →
  tex_to_dds_bytes calc malloc_ok (Some raw)
  = Success (Some <$> (dds_headers calc h pf need_dx10 ++ concat levels))
            (Zlen (dds_headers calc h pf need_dx10) + Zlen (concat levels)).
Proof.
  intros Hmalloc Hvalid Hmip Hsizes Hpay.
  set (n := Z.to_nat (mipmap_count_of calc h)) in *.
  assert (Zlen (concat levels) = Zlen (payload raw)) as ->.
  { rewrite Hpay. unfold Zlen. by rewrite concat_reverse_length. }
  destruct (Nat.eq_dec n 0%nat) as [Hz|Hnz].
  - (* no level at all: the payload is empty and copied as it is *)
    assert (levels = []) as ->.
    { apply length_zero_iff_nil. by rewrite (chain_length h levels n). }
    rewrite (tex_to_dds_bytes_valid _ _ _ _ _ _ Hmalloc Hvalid).
    destruct (Z.gtb_spec (mipmap_count_of calc h) 0); [lia|].
    rewrite andb_false_r.
    erewrite (memcpy_append _ (payload raw)); [|done..].
    cbn [or_fault]. rewrite Nat.sub_diag, app_nil_r, Hpay. done.
  - rewrite (tex_to_dds_bytes_levels calc malloc_ok raw h pf need_dx10 n);
      try done; try lia.
    + rewrite Hpay at 1 2.
      rewrite (chain_chunks h levels n Hsizes).
      rewrite (chain_total_all h levels n Hsizes), <- Hpay, Z.sub_diag.
      cbn [Z.to_nat replicate]. by rewrite app_nil_r.
    + rewrite Hpay, (chain_total_all h levels n Hsizes). lia.
Qed.

Lemma mip_chain_reordered_witness :
  LolNative.convert (λ _, true) (Some four_level_input)
  = Success
      (Some <$> (dds_headers LolNative.calc_mipmap_count (parsed_8x8 x0a x01)
                   dxt1_pixelformat false
                 ++ concat chain_8x8))
      184.
Proof.
  apply (mip_chain_reordered LolNative.calc_mipmap_count (λ _, true)
           four_level_input (parsed_8x8 x0a x01) dxt1_pixelformat
           false chain_8x8).
  - intros n. reflexivity.
  - repeat split; vm_compute; reflexivity.
  - vm_compute. discriminate.
  - vm_compute. reflexivity.
  - vm_compute. reflexivity.
Defined.

(** The input of the specification's test, an 8 by 8 image with two levels
    of eight bytes: the first computed level has 32 bytes, the cursor is
    negative at once and no byte of the payload is copied. *)
Lemma two_level_input_not_reordered :
  ∃ out size,
    convert (λ _, true) (Some two_level_input) = Success out size
    ∧ drop 128 out = replicate 16 None
    ∧ drop 128 out ≠ Some <$> (replicate 8 x10 ++ replicate 8 x11).
Proof.
  eexists _, _. split; [vm_compute; reflexivity|].
  split; [vm_compute; reflexivity|].
  vm_compute. intros [=].
Qed.

(** C3, as the code has it.  When the first [k] levels fit and the cursor
    is negative at level [k], the conversion still succeeds: the output is the
    headers, the [k] levels copied so far, and the rest of the payload area
    left unwritten.  The reported length is that of the headers plus the
    whole input payload, whatever was copied. *)
Theorem truncated_chain_succeeds calc malloc_ok raw h pf need_dx10 (k : nat) :
  always malloc_ok → valid_container raw h pf need_dx10 →
  has_mipmaps h ≠ 0 →
  (k < Z.to_nat (mipmap_count_of calc h))%nat →
  mip_total h k ≤ Zlen (payload raw) →
  s32 (Zlen (payload raw) - mip_total h k - mip_size h (Z.of_nat k)) < 0 →
  tex_to_dds_bytes calc malloc_ok (Some raw)
  = Success
      ((Some <$> (dds_headers calc h pf need_dx10
                  ++ mip_chunks h (payload raw) k))
       ++ replicate (Z.to_nat (Zlen (payload raw) - mip_total h k)) None)
      (Zlen (dds_headers calc h pf need_dx10) + Zlen (payload raw)).
Proof.
  intros Hmalloc Hvalid Hmip Hk Hfit Hneg.
  apply tex_to_dds_bytes_levels; [done|done|done|lia|lia|done|by right].
Qed.

Lemma truncated_chain_succeeds_witness :
  convert (λ _, true)
    (Some (header_8x8 x0a x01 ++ replicate 2 x12 ++ replicate 32 x10))
  = Success
      ((Some <$> (dds_headers calc_mipmap_count (parsed_8x8 x0a x01)
                    dxt1_pixelformat false
                  ++ replicate 32 x10))
       ++ replicate 2 None)
      162.
Proof.
  apply (truncated_chain_succeeds calc_mipmap_count (λ _, true)
           (header_8x8 x0a x01 ++ replicate 2 x12 ++ replicate 32 x10)
           (parsed_8x8 x0a x01) dxt1_pixelformat false 1).
  - intros n. reflexivity.
  - repeat split; vm_compute; reflexivity.
  - vm_compute. discriminate.
  - vm_compute. lia.
  - vm_compute. discriminate.
  - vm_compute. reflexivity.
Defined.

(** On the two-level input no level is copied, and the reported length is
    still 144: the 128 bytes of headers and all 16 bytes of payload area. *)
Lemma truncated_length_not_shortened :
  ∃ out size,
    convert (λ _, true) (Some two_level_input) = Success out size
    ∧ drop 128 out = replicate 16 None
    ∧ size ≠ 128 + 0.
Proof.
  eexists _, _. split; [vm_compute; reflexivity|].
  split; [vm_compute; reflexivity|]. vm_compute. discriminate.
Qed.

(** The helpers that lol_native.cpp repeats are the same functions. *)
Lemma get_block_size_same format :
  LolNative.get_block_size format = get_block_size format.
Proof.
  unfold LolNative.get_block_size, get_block_size.
  destruct ((format =? TEX_FORMAT_DXT1) || (format =? TEX_FORMAT_DXT5));
    [done|].
  by destruct ((format =? TEX_FORMAT_BGRA8) || (format =? TEX_FORMAT_RGBA16)).
Qed.

Lemma calc_mipmap_count_same w h :
  0 ≤ w < 2 ^ 32 → 0 ≤ h < 2 ^ 32 →
  LolNative.calc_mipmap_count w h = calc_mipmap_count w h.
Proof.
  intros Hw Hh. destruct (Z.eq_dec (Z.max w h) 0) as [Hz|Hnz].
  - assert (w = 0) as -> by lia. by assert (h = 0) as -> by lia.
  - rewrite calc_mipmap_count_log2, lol_calc_mipmap_count_log2 by lia. done.
Qed.

(** A level size above [2 ^ 31] is outside what the cursor test covers: the
    difference wraps to a positive [int32_t] and the copy leaves the
    buffers.  Here a 65535 by 65535 BGRA8 header with mipmaps and no
    payload. *)
Lemma wrapped_cursor_out_of_bounds :
  convert (λ _, true)
    (Some [x54; x45; x58; x00;  xff; xff;  xff; xff;  x00; x14; x00; x01])
  = OutOfBounds.
Proof. vm_compute. reflexivity. Qed.

(** *** Failures *)

Lemma fread_TEX_HEADER_magic raw h :
  fread_TEX_HEADER raw = Some h → take 3 (magic h) = take 3 raw.
Proof.
  unfold fread_TEX_HEADER. intros H.
  do 12 (destruct raw as [|? raw]; [discriminate|]).
  by injection H as <-.
Qed.

Lemma magic_differs_spec raw h :
  fread_TEX_HEADER raw = Some h →
  magic_differs h = true ↔ take 3 raw ≠ take 3 TEX_MAGIC.
Proof.
  intros Hread. unfold magic_differs.
  rewrite (fread_TEX_HEADER_magic _ _ Hread).
  case_bool_decide; simpl; naive_solver.
Qed.

(** Past the format switch the function no longer returns -2 or -3. *)
Lemma tex_to_dds_bytes_late_status calc malloc_ok raw h pf need_dx10 :
  Zlen raw < 2 ^ 32 →
  fread_TEX_HEADER raw = Some h → magic_differs h = false →
  select_pixelformat (tex_format h) = Some (pf, need_dx10) →
  tex_to_dds_bytes calc malloc_ok (Some raw) ≠ Failure InvalidInput
  ∧ tex_to_dds_bytes calc malloc_ok (Some raw) ≠ Failure UnsupportedFormat.
Proof.
  intros Hlen Hread Hmagic Hsel.
  assert (12 ≤ Zlen raw) as H12 by (apply fread_TEX_HEADER_length; eauto).
  unfold tex_to_dds_bytes.
  rewrite (u32_small (Zlen raw)) by lia.
  destruct (Z.ltb_spec (Zlen raw) sizeof_TEX_HEADER) as [Hlt|_];
    [unfold sizeof_TEX_HEADER in Hlt; lia|].
  rewrite Hread, Hmagic, Hsel.
  rewrite (u32_small (Zlen raw - _)) by (unfold sizeof_TEX_HEADER; lia).
  assert (Zlen (drop (Z.to_nat sizeof_TEX_HEADER) raw)
          = Zlen raw - sizeof_TEX_HEADER) as ->.
  { unfold Zlen, sizeof_TEX_HEADER in *. rewrite length_drop. lia. }
  destruct (Z.geb_spec (Zlen raw - sizeof_TEX_HEADER)
              (Zlen raw - sizeof_TEX_HEADER)); [|lia].
  unfold InvalidInput, UnsupportedFormat, or_fault.
  split; repeat case_match; discriminate.
Qed.

(** An allocation that fails gives the fourth status. *)
Lemma allocation_failure_status calc malloc_ok raw h pf need_dx10 :
  valid_container raw h pf need_dx10 → (∀ n, malloc_ok n = false) →
  tex_to_dds_bytes calc malloc_ok (Some raw) = Failure AllocationFailure.
Proof.
  intros Hvalid Hmalloc.
  destruct (valid_payload_length _ _ _ _ Hvalid) as [_ H12].
  destruct Hvalid as (Hlen & Hread & Hmagic & Hsel).
  unfold tex_to_dds_bytes.
  rewrite (u32_small (Zlen raw)) by lia.
  destruct (Z.ltb_spec (Zlen raw) sizeof_TEX_HEADER) as [Hlt|_];
    [unfold sizeof_TEX_HEADER in Hlt; lia|].
  by rewrite Hread, Hmagic, Hsel, Hmalloc.
Qed.

(** C6, as the code has it.  The conversion returns the status of an
    invalid file exactly when the file is shorter than the twelve bytes of
    [TEX_HEADER] or its first three bytes are not the magic, and the status of
    an unsupported format exactly when the header is complete, the magic is
    there and the format is none of the four; the statuses of the four
    failure classes are negative and pairwise different. *)
Theorem failure_classes calc malloc_ok raw :
  Zlen raw < 2 ^ 32 →
  (tex_to_dds_bytes calc malloc_ok (Some raw) = Failure InvalidInput
   ↔ Zlen raw < sizeof_TEX_HEADER ∨ take 3 raw ≠ take 3 TEX_MAGIC)
  ∧ (tex_to_dds_bytes calc malloc_ok (Some raw) = Failure UnsupportedFormat
     ↔ ∃ h, fread_TEX_HEADER raw = Some h
            ∧ take 3 raw = take 3 TEX_MAGIC
            ∧ tex_format h ∉ recognized_formats)
  ∧ Forall (λ status, status < 0)
      [OpenFailed; InvalidInput; UnsupportedFormat; AllocationFailure]
  ∧ NoDup [OpenFailed; InvalidInput; UnsupportedFormat; AllocationFailure].
Proof.
  intros Hlen. split; [|split; [|split; [by repeat constructor|]]];
    [| |by repeat (constructor; [rewrite list_elem_of_In; simpl;
                                 unfold OpenFailed, InvalidInput,
                                   UnsupportedFormat, AllocationFailure;
                                 intuition lia|]); constructor].
  - destruct (fread_TEX_HEADER raw) as [h|] eqn:Hread.
    + assert (12 ≤ Zlen raw) as H12 by (apply fread_TEX_HEADER_length; eauto).
      pose proof (magic_differs_spec _ _ Hread) as Hspec.
      destruct (magic_differs h) eqn:Hmagic.
      * split; [intros _; right; by apply Hspec|intros _].
        unfold tex_to_dds_bytes.
        rewrite (u32_small (Zlen raw)) by lia.
        destruct (Z.ltb_spec (Zlen raw) sizeof_TEX_HEADER); [done|].
        by rewrite Hread, Hmagic.
      * assert (¬ (Zlen raw < sizeof_TEX_HEADER
                   ∨ take 3 raw ≠ take 3 TEX_MAGIC)) as Hno.
        { intros [Hlt|Hne]; [unfold sizeof_TEX_HEADER in Hlt; lia|].
          apply Hspec in Hne. congruence. }
        split; [|done]. intros Hres. exfalso.
        destruct (select_pixelformat (tex_format h)) as [[pf dx]|] eqn:Hsel.
        -- by destruct (tex_to_dds_bytes_late_status calc malloc_ok raw h pf dx).
        -- revert Hres. unfold tex_to_dds_bytes.
           rewrite (u32_small (Zlen raw)) by lia.
           destruct (Z.ltb_spec (Zlen raw) sizeof_TEX_HEADER);
             [unfold sizeof_TEX_HEADER in *; lia|].
           by rewrite Hread, Hmagic, Hsel.
    + assert (¬ 12 ≤ Zlen raw) as Hshort.
      { rewrite <- fread_TEX_HEADER_length, Hread. by intros [? ?]. }
      split; [intros _; left; unfold sizeof_TEX_HEADER; lia|intros _].
      unfold tex_to_dds_bytes. rewrite Hread.
      by destruct (u32 (Zlen raw) <? sizeof_TEX_HEADER).
  - split.
    + intros Hres. destruct (fread_TEX_HEADER raw) as [h|] eqn:Hread.
      * assert (12 ≤ Zlen raw) as H12
          by (apply fread_TEX_HEADER_length; eauto).
        exists h. split; [done|]. revert Hres. unfold tex_to_dds_bytes.
        rewrite (u32_small (Zlen raw)) by lia.
        destruct (Z.ltb_spec (Zlen raw) sizeof_TEX_HEADER);
          [unfold sizeof_TEX_HEADER in *; lia|].
        rewrite Hread. pose proof (magic_differs_spec _ _ Hread) as Hspec.
        destruct (magic_differs h) eqn:Hmagic; [done|]. intros Hres.
        split.
        { destruct (decide (take 3 raw = take 3 TEX_MAGIC)) as [|Hne];
            [done|]. apply Hspec in Hne. congruence. }
        apply select_pixelformat_none.
        destruct (select_pixelformat (tex_format h)) as [[pf dx]|] eqn:Hsel;
          [|done].
        destruct (tex_to_dds_bytes_late_status calc malloc_ok raw h pf dx)
          as [_ Hnot]; try done.
        exfalso. apply Hnot. unfold tex_to_dds_bytes.
        rewrite (u32_small (Zlen raw)) by lia.
        destruct (Z.ltb_spec (Zlen raw) sizeof_TEX_HEADER);
          [unfold sizeof_TEX_HEADER in *; lia|].
        by rewrite Hread, Hmagic, Hsel.
      * revert Hres. unfold tex_to_dds_bytes. rewrite Hread.
        by destruct (u32 (Zlen raw) <? sizeof_TEX_HEADER).
    + intros (h & Hread & Hmagic & Hfmt).
      assert (12 ≤ Zlen raw) as H12 by (apply fread_TEX_HEADER_length; eauto).
      apply select_pixelformat_none in Hfmt.
      assert (magic_differs h = false) as Hm.
      { destruct (magic_differs h) eqn:E; [|done].
        by apply (magic_differs_spec _ _ Hread) in E. }
      unfold tex_to_dds_bytes.
      rewrite (u32_small (Zlen raw)) by lia.
      destruct (Z.ltb_spec (Zlen raw) sizeof_TEX_HEADER);
        [unfold sizeof_TEX_HEADER in *; lia|].
      by rewrite Hread, Hm, Hfmt.
Qed.

Lemma failure_classes_witness :
  convert (λ _, true) (Some (header_8x8 xff x00)) = Failure UnsupportedFormat.
Proof.
  apply (failure_classes calc_mipmap_count (λ _, true) (header_8x8 xff x00)).
  - vm_compute. reflexivity.
  - exists (parsed_8x8 xff x00). split; [reflexivity|].
    split; [reflexivity|]. rewrite list_elem_of_In. vm_compute.
    intros [H|[H|[H|[H|[]]]]]; discriminate H.
Defined.

(** A ten-byte file with the magic is not shorter than eight bytes, and is
    still rejected as invalid: the header has twelve bytes. *)
Lemma ten_byte_file_invalid :
  convert (λ _, true) (Some (take 10 (header_8x8 x0a x00)))
  = Failure InvalidInput
  ∧ ¬ (Zlen (take 10 (header_8x8 x0a x00)) < 8
       ∨ take 3 (take 10 (header_8x8 x0a x00)) ≠ take 3 TEX_MAGIC).
Proof.
  split; [vm_compute; reflexivity|].
  intros [H|H]; [vm_compute in H; discriminate|by apply H].
Qed.

End ConvertProofs.

(** * Properties of the extractors *)

Module ExtractProofs.
Import Bin ExtractSpec.

(** C9.  A document without an "entries" section, or with one that is not a
    [Mapping], gives the empty mapping and the empty text, in both
    extractors, whatever the iteration order of the library is. *)
Theorem no_entries_empty bin :
  (∀ pairs, sections bin !! "entries" ≠ Some (Mapping pairs)) →
  BinParser.collect bin = ∅
  ∧ (∀ iterate, BinParser.extract_textures iterate bin = "")
  ∧ RitobinDll.collect bin = ∅
  ∧ (∀ iterate, RitobinDll.extract_textures iterate bin = "").
Proof.
  intros Hno.
  unfold BinParser.collect, BinParser.extract_textures, RitobinDll.collect,
    RitobinDll.extract_textures.
  destruct (sections bin !! "entries") as [v|]; [|done].
  destruct v; try done. by destruct (Hno pairs).
Qed.

Lemma no_entries_empty_witness :
  BinParser.collect (mkDocument {[ "entries" := Text "skin" ]}) = ∅
  ∧ BinParser.collect (mkDocument ∅) = ∅.
Proof.
  split.
  - apply (no_entries_empty (mkDocument {[ "entries" := Text "skin" ]})).
    intros pairs. vm_compute. discriminate.
  - apply (no_entries_empty (mkDocument ∅)).
    intros pairs. vm_compute. discriminate.
Defined.

(** What the two readers of an override take from its fields:
    [find_field] the first field of a hash, the loop of ritobin_dll.cpp the
    last one. *)
Lemma find_in_head fields h :
  BinParser.find_in fields h = head (keyed fields h).
Proof.
  unfold keyed. induction fields as [|f fields IH]; [done|].
  cbn [BinParser.find_in]. rewrite filter_cons.
  destruct (Z.eqb_spec (hash (key_of f)) h) as [Heq|Hne].
  - by rewrite decide_True.
  - by rewrite decide_False.
Qed.

Lemma get_string_text f : BinParser.get_string (value_of f) = text_of (Some f).
Proof. destruct f as [key value]. by destruct value. Qed.

Lemma first_text_read fields h :
  match BinParser.find_in fields h with
  | Some f => BinParser.get_string (value_of f)
  | None => ""
  end = first_text fields h.
Proof.
  unfold first_text. rewrite find_in_head.
  destruct (head (keyed fields h)) as [f|]; [apply get_string_text|done].
Qed.

Lemma last_text_snoc fields f h :
  last_text (fields ++ [f]) h
  = if hash (key_of f) =? h then RitobinDll.get_string_value (value_of f)
    else last_text fields h.
Proof.
  unfold last_text, keyed. rewrite filter_app, filter_cons, filter_nil.
  destruct (Z.eqb_spec (hash (key_of f)) h) as [Heq|Hne].
  - rewrite decide_True by done. rewrite last_snoc.
    symmetry. apply get_string_text.
  - rewrite decide_False by done. by rewrite app_nil_r.
Qed.

Lemma last_text_read fields :
  (foldl RitobinDll.read_override_field ("", "", 0) fields).1.1
  = last_text fields RitobinDll.HASH_NAME
  ∧ (foldl RitobinDll.read_override_field ("", "", 0) fields).1.2
    = last_text fields RitobinDll.HASH_TEXTURE.
Proof.
  induction fields as [|f fields [IHname IHtex]] using rev_ind; [done|].
  rewrite foldl_app, !last_text_snoc. cbn [foldl].
  destruct (foldl RitobinDll.read_override_field ("", "", 0) fields)
    as [[mat_name tex_path] linked_mat_hash].
  cbn [fst snd] in IHname, IHtex. subst mat_name tex_path.
  unfold RitobinDll.read_override_field. by cbn [fst snd].
Qed.

(** C7, as the code has it.  The direct texture of an override is the text
    of the TEXTURE field that the extractor reads: the first field with that
    hash in bin_parser.cpp, the last one in ritobin_dll.cpp.  When that text
    is not empty, the resolution step returns it for every link and every
    index, an override with a name is recorded with it, and one without a
    name leaves the results as they are.  The outcome mentions neither the
    index nor the MATERIAL_LINK field: the link is not followed, whatever
    the linked object holds. *)
Theorem direct_texture_wins entries_map results override_embed :
  (first_text (items_of override_embed) BinParser.HASH_TEXTURE ≠ "" →
   (∀ linked_mat_hash,
      BinParser.resolve_path entries_map
        (first_text (items_of override_embed) BinParser.HASH_TEXTURE)
        linked_mat_hash
      = first_text (items_of override_embed) BinParser.HASH_TEXTURE)
   ∧ BinParser.process_override entries_map results (Object override_embed)
     = if bool_decide
            (first_text (items_of override_embed) BinParser.HASH_SUBMESH = "")
       then results
       else <[first_text (items_of override_embed) BinParser.HASH_SUBMESH
              := first_text (items_of override_embed) BinParser.HASH_TEXTURE]>
            results)
  ∧ (last_text (items_of override_embed) RitobinDll.HASH_TEXTURE ≠ "" →
     (∀ linked_mat_hash,
        RitobinDll.resolve_path entries_map
          (last_text (items_of override_embed) RitobinDll.HASH_TEXTURE)
          linked_mat_hash
        = last_text (items_of override_embed) RitobinDll.HASH_TEXTURE)
     ∧ RitobinDll.process_override entries_map results
         (Object override_embed)
       = if bool_decide
              (last_text (items_of override_embed) RitobinDll.HASH_NAME = "")
         then results
         else <[last_text (items_of override_embed) RitobinDll.HASH_NAME
                := last_text (items_of override_embed)
                     RitobinDll.HASH_TEXTURE]>
              results).
Proof.
  split; intros Htex; (split; [intros linked_mat_hash|]).
  - unfold BinParser.resolve_path.
    by rewrite (bool_decide_eq_false_2 _ Htex).
  - unfold BinParser.process_override, BinParser.override_fields,
      BinParser.find_field.
    cbn [BinParser.get_embed]. rewrite !first_text_read.
    unfold BinParser.resolve_path, BinParser.record_override.
    rewrite (bool_decide_eq_false_2 _ Htex). cbn [andb negb].
    rewrite (bool_decide_eq_false_2 _ Htex). cbn [negb].
    rewrite andb_true_r. by case_bool_decide.
  - unfold RitobinDll.resolve_path.
    by rewrite (bool_decide_eq_false_2 _ Htex).
  - unfold RitobinDll.process_override, RitobinDll.override_fields.
    destruct (last_text_read (items_of override_embed)) as [Hname Hpath].
    destruct (foldl RitobinDll.read_override_field ("", "", 0)
                (items_of override_embed))
      as [[mat_name tex_path] linked_mat_hash].
    cbn [fst snd] in Hname, Hpath. subst mat_name tex_path.
    unfold RitobinDll.resolve_path.
    rewrite (bool_decide_eq_false_2 _ Htex). cbn [andb negb].
    rewrite (bool_decide_eq_false_2 _ Htex). cbn [negb].
    rewrite andb_true_r. by case_bool_decide.
Qed.

Lemma direct_texture_wins_witness :
  BinParser.process_override
    {[ 2 := mkEmbed (fnv 0)
              [field BinParser.HASH_SAMPLER_VALUES (ListA two_samplers)] ]}
    ∅
    (object [field BinParser.HASH_SUBMESH (Text "Body");
             field BinParser.HASH_TEXTURE (Text "body.tex");
             field BinParser.HASH_MATERIAL_LINK (Link (fnv 2))])
  = {[ "Body" := "body.tex" ]}
  ∧ RitobinDll.process_override
      {[ 2 := mkEmbed (fnv 0)
                [field BinParser.HASH_SAMPLER_VALUES (ListA two_samplers)] ]}
      ∅
      (object [field BinParser.HASH_SUBMESH (Text "Body");
               field BinParser.HASH_TEXTURE (Text "");
               field BinParser.HASH_MATERIAL_LINK (HashId (fnv 2));
               field BinParser.HASH_TEXTURE (Text "body.tex")])
    = {[ "Body" := "body.tex" ]}.
Proof.
  split.
  - refine (eq_trans (proj2 (proj1 (direct_texture_wins _ ∅ _) _)) _).
    + vm_compute. discriminate.
    + vm_compute. reflexivity.
  - refine (eq_trans (proj2 (proj2 (direct_texture_wins _ ∅ _) _)) _).
    + vm_compute. discriminate.
    + vm_compute. reflexivity.
Defined.

(** The override of [repeated_texture_document] holds the direct texture
    "direct.tex" and a link, and yet both extractors follow the link and
    record the sampler "a.tex" of the linked material: the TEXTURE field
    they read, the first for one and the last for the other, is empty. *)
Lemma repeated_texture_follows_link :
  (∃ fields,
     repeated_texture_override = object fields
     ∧ field BinParser.HASH_TEXTURE (Text "direct.tex") ∈ fields
     ∧ field BinParser.HASH_MATERIAL_LINK (Link (fnv 2)) ∈ fields)
  ∧ BinParser.collect repeated_texture_document = {[ "Body" := "a.tex" ]}
  ∧ RitobinDll.collect repeated_texture_document = {[ "Body" := "a.tex" ]}
  ∧ BinParser.collect repeated_texture_document !! "Body"
    ≠ Some "direct.tex"
  ∧ RitobinDll.collect repeated_texture_document !! "Body"
    ≠ Some "direct.tex".
Proof.
  split.
  { eexists. split; [reflexivity|].
    split; rewrite list_elem_of_In; simpl; tauto. }
  assert (BinParser.collect repeated_texture_document
          = {[ "Body" := "a.tex" ]}) as HA by (vm_compute; reflexivity).
  assert (RitobinDll.collect repeated_texture_document
          = {[ "Body" := "a.tex" ]}) as HB by (vm_compute; reflexivity).
  rewrite HA, HB. repeat split; vm_compute; discriminate.
Qed.

(** C2 on three documents.  The override "Body" has no direct texture and
    links to a material with two diffuse samplers, "a.tex" before "b.tex".
    As a [ListA] or a [ListB] the samplers give the first one; as a [Mapping]
    they are not scanned, although the comment of the source announces
    List, List2, then Map, and the override contributes nothing. *)
Theorem mapping_samplers_not_scanned :
  BinParser.collect (linked_document (ListA two_samplers))
  = {[ "Body" := "a.tex" ]}
  ∧ BinParser.collect (linked_document (ListB two_samplers))
    = {[ "Body" := "a.tex" ]}
  ∧ BinParser.collect
      (linked_document
         (Mapping [(Text "k0", diffuse "a.tex"); (Text "k1", diffuse "b.tex")]))
    = ∅.
Proof. repeat split; vm_compute; reflexivity. Qed.

(** Whatever a [Mapping] of samplers holds, the path stays as it was. *)
Lemma follow_link_mapping entries_map linked mat_entry props_field pairs
    tex_path :
  entries_map !! linked = Some mat_entry →
  BinParser.find_field mat_entry BinParser.HASH_SAMPLER_VALUES
    = Some props_field →
  value_of props_field = Mapping pairs →
  BinParser.follow_link entries_map linked tex_path = tex_path.
Proof.
  intros Hl Hf Hv. unfold BinParser.follow_link. by rewrite Hl, Hf, Hv.
Qed.

(** In a list of samplers the scan stops at the first match. *)
Lemma scan_props_first_match before item after p_val tex_path :
  Forall (λ v, BinParser.process_prop v = None) before →
  BinParser.process_prop item = Some p_val →
  BinParser.scan_props (before ++ item :: after) tex_path = p_val.
Proof.
  intros Hbefore Hitem. induction Hbefore as [|v before Hv _ IH]; simpl.
  - by rewrite Hitem.
  - by rewrite Hv.
Qed.

(** The same overrides as a [ListA] and as a [ListB] do not give the same
    mapping. *)
Lemma listb_overrides_differ :
  BinParser.collect (override_document (ListA [direct_override]))
  = {[ "Body" := "body.tex" ]}
  ∧ BinParser.collect (override_document (ListB [direct_override])) = ∅
  ∧ BinParser.collect (override_document (ListB [direct_override]))
    ≠ BinParser.collect (override_document (ListA [direct_override])).
Proof.
  assert (BinParser.collect (override_document (ListA [direct_override]))
          = {[ "Body" := "body.tex" ]}) as HA by (vm_compute; reflexivity).
  assert (BinParser.collect (override_document (ListB [direct_override])) = ∅)
    as HB by (vm_compute; reflexivity).
  split; [done|]. split; [done|]. rewrite HA, HB.
  intros H. apply (f_equal (λ m : gmap string string, m !! "Body")) in H.
  by rewrite lookup_empty, lookup_singleton_eq in H.
Qed.

(** C4, as the code has it.  A MATERIAL_OVERRIDE field that holds a
    [ListB] is not processed: in bin_parser.cpp the skinMeshProperties object
    then contributes its BASE texture at most, in ritobin_dll.cpp the field
    leaves the results as they are.  Only a [ListA] is walked, element by
    element. *)
Theorem listb_overrides_ignored entries_map results :
  (∀ skin_mesh mo_field elems,
     BinParser.find_field skin_mesh BinParser.HASH_MATERIAL_OVERRIDE
       = Some mo_field →
     value_of mo_field = ListB elems →
     BinParser.process_skin_mesh entries_map results skin_mesh
     = match BinParser.find_field skin_mesh BinParser.HASH_TEXTURE with
       | Some tex_field =>
           BinParser.record_base results
             (BinParser.get_string (value_of tex_field))
       | None => results
       end)
  ∧ (∀ skin_mesh mo_field elems,
     BinParser.find_field skin_mesh BinParser.HASH_MATERIAL_OVERRIDE
       = Some mo_field →
     value_of mo_field = ListA elems →
     BinParser.process_skin_mesh entries_map results skin_mesh
     = foldl (BinParser.process_override entries_map)
         match BinParser.find_field skin_mesh BinParser.HASH_TEXTURE with
         | Some tex_field =>
             BinParser.record_base results
               (BinParser.get_string (value_of tex_field))
         | None => results
         end
         elems)
  ∧ (∀ key elems,
     hash key = RitobinDll.HASH_MATERIAL_OVERRIDE →
     RitobinDll.process_sub_field entries_map results
       (mkField key (ListB elems)) = results).
Proof.
  split; [|split].
  - intros sm f elems Hf Hv. unfold BinParser.process_skin_mesh.
    by rewrite Hf, Hv.
  - intros sm f elems Hf Hv. unfold BinParser.process_skin_mesh.
    by rewrite Hf, Hv.
  - intros key elems Hk. unfold RitobinDll.process_sub_field.
    cbn [key_of value_of]. rewrite Hk. done.
Qed.

Lemma listb_overrides_ignored_witness :
  BinParser.process_skin_mesh ∅ ∅
    (mkEmbed (fnv 0)
       [field BinParser.HASH_TEXTURE (Text "base.tex");
        field BinParser.HASH_MATERIAL_OVERRIDE (ListB [direct_override])])
  = {[ "BASE" := "base.tex" ]}.
Proof.
  rewrite (proj1 (listb_overrides_ignored ∅ ∅) _
             (field BinParser.HASH_MATERIAL_OVERRIDE (ListB [direct_override]))
             [direct_override]).
  - vm_compute. reflexivity.
  - vm_compute. reflexivity.
  - reflexivity.
Defined.

(** *** The two extractors side by side *)

Lemma find_in_same fields h :
  RitobinDll.find_in fields h = BinParser.find_in fields h.
Proof. reflexivity. Qed.

Lemma index_entry_same entries_map pair :
  RitobinDll.index_entry entries_map pair
  = BinParser.index_entry entries_map pair.
Proof.
  destruct pair as [k v].
  unfold RitobinDll.index_entry, BinParser.index_entry.
  by destruct k, v.
Qed.

Lemma foldl_same {A B} (f g : A → B → A) (l : list B) :
  Forall (λ x, ∀ a, f a x = g a x) l → ∀ a, foldl f a l = foldl g a l.
Proof.
  induction 1 as [|x l Hx _ IH]; intros a; [done|].
  simpl. by rewrite Hx, IH.
Qed.

Lemma build_entries_map_same pairs :
  RitobinDll.build_entries_map pairs = BinParser.build_entries_map pairs.
Proof.
  apply foldl_same, Forall_forall. intros p _ m. apply index_entry_same.
Qed.

(** Every entry of the index is the object of some pair. *)
Lemma build_entries_map_values pairs k e :
  BinParser.build_entries_map pairs !! k = Some e →
  ∃ key, (key, Object e) ∈ pairs.
Proof.
  unfold BinParser.build_entries_map.
  assert (∀ m : gmap Z Embed,
            foldl BinParser.index_entry m pairs !! k = Some e →
            m !! k = Some e ∨ ∃ key, (key, Object e) ∈ pairs) as Hgen.
  { induction pairs as [|[key v] pairs IH]; intros m Hm; [by left|].
    simpl in Hm. destruct (IH _ Hm) as [Hin|[key' Hin]].
    - unfold BinParser.index_entry in Hin. simpl in Hin.
      destruct key; try (by left).
      destruct v; try (by left).
      destruct (decide (hash h = k)) as [<-|Hne].
      + rewrite lookup_insert_eq in Hin. injection Hin as ->.
        right. eexists. by left.
      + rewrite lookup_insert_ne in Hin by done. by left.
    - right. exists key'. by right. }
  intros Hm. destruct (Hgen ∅ Hm) as [Hempty|]; [|done].
  by rewrite lookup_empty in Hempty.
Qed.

(** Fields that occur once. *)
Lemma count_key_cons f fields h :
  count_key (f :: fields) h
  = ((if decide (hash (key_of f) = h) then 1 else 0) + count_key fields h)%nat.
Proof.
  unfold count_key. rewrite filter_cons. by destruct (decide _).
Qed.

Lemma once_tail f fields h : once (f :: fields) h = true → once fields h = true.
Proof.
  unfold once. rewrite !bool_decide_eq_true, count_key_cons.
  destruct (decide _); lia.
Qed.

Lemma find_in_absent fields h :
  count_key fields h = 0%nat → BinParser.find_in fields h = None.
Proof.
  induction fields as [|f fields IH]; [done|].
  rewrite count_key_cons. cbn [BinParser.find_in].
  destruct (decide (hash (key_of f) = h)) as [|Hne]; [lia|].
  destruct (Z.eqb_spec (hash (key_of f)) h); [done|]. intros. apply IH. lia.
Qed.

Lemma once_head f fields h :
  once (f :: fields) h = true → hash (key_of f) = h →
  BinParser.find_in fields h = None.
Proof.
  unfold once. rewrite bool_decide_eq_true, count_key_cons. intros Hc Hk.
  apply find_in_absent. destruct (decide _); [lia|done].
Qed.

(** The hash constants of the two files are the same numbers. *)
Ltac same_hashes :=
  change RitobinDll.HASH_SKIN_MESH_PROPERTIES
    with BinParser.HASH_SKIN_MESH_PROPERTIES in *;
  change RitobinDll.HASH_TEXTURE with BinParser.HASH_TEXTURE in *;
  change RitobinDll.HASH_MATERIAL_OVERRIDE
    with BinParser.HASH_MATERIAL_OVERRIDE in *;
  change RitobinDll.HASH_NAME with BinParser.HASH_SUBMESH in *;
  change RitobinDll.HASH_MATERIAL_LINK with BinParser.HASH_MATERIAL_LINK in *;
  change RitobinDll.HASH_PROPERTIES_LIST
    with BinParser.HASH_SAMPLER_VALUES in *;
  change RitobinDll.HASH_PROP_NAME with BinParser.HASH_PROP_NAME in *;
  change RitobinDll.HASH_PROP_VALUE with BinParser.HASH_PROP_VALUE in *.

(** Case analysis on the hash of a field against the constants it is
    compared with. *)
Ltac hash_cases k :=
  repeat match goal with
         | |- context [k =? ?c] =>
             destruct (Z.eqb_spec k c) as [->|?]
         | H : context [k =? ?c] |- _ =>
             destruct (Z.eqb_spec k c) as [->|?]
         end.

(** With each hash at most once, the loop over the fields of an override
    reads what [find_field] finds. *)
Lemma override_fields_fold fields acc :
  once fields BinParser.HASH_SUBMESH = true →
  once fields BinParser.HASH_TEXTURE = true →
  once fields BinParser.HASH_MATERIAL_LINK = true →
  foldl RitobinDll.read_override_field acc fields
  = (field_or fields BinParser.HASH_SUBMESH RitobinDll.get_string_value
       acc.1.1,
     field_or fields BinParser.HASH_TEXTURE RitobinDll.get_string_value
       acc.1.2,
     field_or fields BinParser.HASH_MATERIAL_LINK RitobinDll.get_hash_value
       acc.2).
Proof.
  revert acc. induction fields as [|f fields IH]; intros [[n t] l] Hn Ht Hl.
  - done.
  - cbn [foldl]. rewrite IH by eauto using once_tail.
    pose proof (once_head _ _ _ Hn) as Hn'.
    pose proof (once_head _ _ _ Ht) as Ht'.
    pose proof (once_head _ _ _ Hl) as Hl'.
    unfold RitobinDll.read_override_field, field_or. same_hashes.
    cbn [BinParser.find_in fst snd].
    generalize dependent (hash (key_of f)). intros k Hn' Ht' Hl'.
    hash_cases k; try discriminate;
      rewrite ?Hn', ?Ht', ?Hl' by done; done.
Qed.

Lemma prop_fields_fold fields acc :
  once fields BinParser.HASH_PROP_NAME = true →
  once fields BinParser.HASH_PROP_VALUE = true →
  foldl RitobinDll.read_prop_field acc fields
  = (field_or fields BinParser.HASH_PROP_NAME RitobinDll.get_string_value
       acc.1,
     field_or fields BinParser.HASH_PROP_VALUE RitobinDll.get_string_value
       acc.2).
Proof.
  revert acc. induction fields as [|f fields IH]; intros [n v] Hn Hv.
  - done.
  - cbn [foldl]. rewrite IH by eauto using once_tail.
    pose proof (once_head _ _ _ Hn) as Hn'.
    pose proof (once_head _ _ _ Hv) as Hv'.
    unfold RitobinDll.read_prop_field, field_or. same_hashes.
    cbn [BinParser.find_in fst snd].
    generalize dependent (hash (key_of f)). intros k Hn' Hv'.
    hash_cases k; try discriminate; rewrite ?Hn', ?Hv' by done; done.
Qed.

Lemma scan_props_same elems tex_path :
  forallb prop_ok elems = true →
  RitobinDll.scan_props elems tex_path = BinParser.scan_props elems tex_path.
Proof.
  induction elems as [|v elems IH]; [done|].
  cbn [forallb]. intros [Hv Hrest]%andb_true_iff.
  cbn [RitobinDll.scan_props BinParser.scan_props].
  unfold BinParser.process_prop.
  destruct v; cbn [BinParser.get_embed]; auto.
  apply andb_true_iff in Hv as [Hn Hp].
  rewrite prop_fields_fold by done.
  unfold field_or, BinParser.find_field. cbn [fst snd].
  change RitobinDll.get_string_value with BinParser.get_string.
  destruct (bool_decide _ && negb (bool_decide _)); auto.
Qed.

Lemma follow_link_same entries_map linked tex_path :
  (∀ k e, entries_map !! k = Some e → material_ok e = true) →
  RitobinDll.follow_link entries_map linked tex_path
  = BinParser.follow_link entries_map linked tex_path.
Proof.
  intros Hok. unfold RitobinDll.follow_link, BinParser.follow_link.
  destruct (entries_map !! linked) as [mat_entry|] eqn:Hl; [|done].
  specialize (Hok _ _ Hl). unfold material_ok in Hok.
  unfold RitobinDll.find_field. rewrite find_in_same. same_hashes.
  fold (BinParser.find_field mat_entry BinParser.HASH_SAMPLER_VALUES).
  destruct (BinParser.find_field mat_entry BinParser.HASH_SAMPLER_VALUES)
    as [props_field|]; [|done].
  destruct (value_of props_field); try done.
  cbn [BinParser.get_list]. by apply scan_props_same.
Qed.

Lemma process_override_same entries_map results override_elem :
  (∀ k e, entries_map !! k = Some e → material_ok e = true) →
  override_ok override_elem = true →
  RitobinDll.process_override entries_map results override_elem
  = BinParser.process_override entries_map results override_elem.
Proof.
  intros Hmat Hok.
  unfold RitobinDll.process_override, BinParser.process_override.
  destruct override_elem as [| | |ov| | | |]; try done.
  cbn [BinParser.get_embed]. unfold override_ok in Hok.
  apply andb_true_iff in Hok as [Hok _].
  apply andb_true_iff in Hok as [Hok Hlink].
  apply andb_true_iff in Hok as [Hok Hl].
  apply andb_true_iff in Hok as [Hn Ht].
  unfold RitobinDll.override_fields. rewrite override_fields_fold by done.
  unfold BinParser.override_fields, BinParser.find_field, field_or in *.
  cbn [fst snd].
  change RitobinDll.get_string_value with BinParser.get_string.
  assert (match BinParser.find_in (items_of ov) BinParser.HASH_MATERIAL_LINK
          with
          | Some f => RitobinDll.get_hash_value (value_of f)
          | None => 0
          end
          = match BinParser.find_in (items_of ov)
                    BinParser.HASH_MATERIAL_LINK with
            | Some mat_field => BinParser.get_link (value_of mat_field)
            | None => 0
            end) as ->.
  { destruct (BinParser.find_in (items_of ov) BinParser.HASH_MATERIAL_LINK)
      as [f|]; [|done].
    by destruct (value_of f). }
  unfold RitobinDll.resolve_path, BinParser.resolve_path,
    BinParser.record_override.
  by rewrite follow_link_same.
Qed.

(** An override that is not named "BASE" leaves the base texture alone. *)
Lemma process_override_base entries_map results override_elem tex :
  override_ok override_elem = true →
  BinParser.process_override entries_map
    (BinParser.record_base results tex) override_elem
  = BinParser.record_base
      (BinParser.process_override entries_map results override_elem) tex.
Proof.
  intros Hok. unfold BinParser.process_override.
  destruct override_elem as [| | |ov| | | |]; try done.
  cbn [BinParser.get_embed]. unfold override_ok in Hok.
  apply andb_true_iff in Hok as [_ Hbase].
  apply negb_true_iff, bool_decide_eq_false in Hbase.
  destruct (BinParser.override_fields ov) as [[n t] l]. cbn [fst snd] in Hbase.
  unfold BinParser.record_override, BinParser.record_base.
  repeat case_match; try done. by apply insert_insert_ne.
Qed.

Lemma process_overrides_base entries_map overrides results tex :
  forallb override_ok overrides = true →
  foldl (BinParser.process_override entries_map)
    (BinParser.record_base results tex) overrides
  = BinParser.record_base
      (foldl (BinParser.process_override entries_map) results overrides) tex.
Proof.
  revert results. induction overrides as [|v overrides IH]; [done|].
  intros results. cbn [forallb foldl]. intros [Hv Hrest]%andb_true_iff.
  by rewrite process_override_base, IH.
Qed.

Lemma process_overrides_same entries_map overrides results :
  (∀ k e, entries_map !! k = Some e → material_ok e = true) →
  forallb override_ok overrides = true →
  foldl (RitobinDll.process_override entries_map) results overrides
  = foldl (BinParser.process_override entries_map) results overrides.
Proof.
  intros Hmat Hok. apply foldl_same. apply Forall_forall.
  intros v Hv a. apply process_override_same; [done|].
  rewrite forallb_forall in Hok. apply Hok. by apply list_elem_of_In.
Qed.

(** The loop over the fields of a skinMeshProperties object against the
    two lookups of bin_parser.cpp. *)
Lemma process_sub_fields_same entries_map name fields results :
  (∀ k e, entries_map !! k = Some e → material_ok e = true) →
  once fields BinParser.HASH_TEXTURE = true →
  once fields BinParser.HASH_MATERIAL_OVERRIDE = true →
  match BinParser.find_in fields BinParser.HASH_MATERIAL_OVERRIDE with
  | Some f =>
      match value_of f with
      | ListA overrides => forallb override_ok overrides
      | _ => true
      end
  | None => true
  end = true →
  foldl (RitobinDll.process_sub_field entries_map) results fields
  = BinParser.process_skin_mesh entries_map results (mkEmbed name fields).
Proof.
  intros Hmat. revert results.
  induction fields as [|f fields IH]; intros results Ht Hm Hovs; [done|].
  cbn [foldl].
  pose proof (once_head _ _ _ Ht) as Ht'.
  pose proof (once_head _ _ _ Hm) as Hm'.
  apply once_tail in Ht. apply once_tail in Hm.
  unfold BinParser.process_skin_mesh at 1. unfold BinParser.find_field.
  cbn [items_of BinParser.find_in]. cbn [BinParser.find_in] in Hovs.
  unfold RitobinDll.process_sub_field at 2. same_hashes.
  change RitobinDll.get_string_value with BinParser.get_string.
  remember (hash (key_of f)) as k eqn:Hk. clear Hk.
  destruct (Z.eqb_spec k BinParser.HASH_TEXTURE) as [->|Hnt].
  - (* the base texture *)
    change (BinParser.HASH_TEXTURE =? BinParser.HASH_MATERIAL_OVERRIDE)
      with false in *. cbv iota in Hovs. cbv iota.
    rewrite IH by done.
    unfold BinParser.process_skin_mesh, BinParser.find_field.
    cbn [items_of]. by rewrite Ht'.
  - destruct (Z.eqb_spec k BinParser.HASH_MATERIAL_OVERRIDE) as [E|Hnm].
    + (* the overrides *)
      subst k.
      assert (∀ r, foldl (RitobinDll.process_sub_field entries_map) r fields
                   = match BinParser.find_in fields BinParser.HASH_TEXTURE with
                     | Some tex_field =>
                         BinParser.record_base r
                           (BinParser.get_string (value_of tex_field))
                     | None => r
                     end) as Hrest.
      { intros r. rewrite IH; [|done|done|by rewrite Hm'].
        unfold BinParser.process_skin_mesh, BinParser.find_field.
        cbn [items_of]. by rewrite Hm'. }
      rewrite Hrest.
      destruct (value_of f) as [| | | |overrides| | |] eqn:Hv;
        cbn [BinParser.get_list]; try done.
      rewrite process_overrides_same by done.
      destruct (BinParser.find_in fields BinParser.HASH_TEXTURE); [|done].
      by rewrite process_overrides_base.
    + rewrite IH by done. done.
Qed.

(** The loop over the fields of an entry against the lookup of
    bin_parser.cpp. *)
Lemma process_fields_same entries_map fields results :
  (∀ k e, entries_map !! k = Some e → material_ok e = true) →
  once fields BinParser.HASH_SKIN_MESH_PROPERTIES = true →
  match BinParser.find_in fields BinParser.HASH_SKIN_MESH_PROPERTIES with
  | Some f =>
      match value_of f with Object sm => skin_mesh_ok sm | _ => true end
  | None => true
  end = true →
  foldl (RitobinDll.process_field entries_map) results fields
  = match BinParser.find_in fields BinParser.HASH_SKIN_MESH_PROPERTIES with
    | Some smp_field =>
        match BinParser.get_embed (value_of smp_field) with
        | Some skin_mesh =>
            BinParser.process_skin_mesh entries_map results skin_mesh
        | None => results
        end
    | None => results
    end.
Proof.
  intros Hmat. revert results.
  induction fields as [|f fields IH]; intros results Hs Hok; [done|].
  cbn [foldl]. pose proof (once_head _ _ _ Hs) as Hs'.
  apply once_tail in Hs.
  cbn [BinParser.find_in] in *.
  unfold RitobinDll.process_field at 2. same_hashes.
  remember (hash (key_of f)) as k eqn:Hk. clear Hk.
  destruct (Z.eqb_spec k BinParser.HASH_SKIN_MESH_PROPERTIES) as [E|Hne].
  - subst k. cbn [negb]. rewrite IH, Hs' by (rewrite ?Hs'; done).
    destruct (value_of f) as [| | |sm| | | |]; try done.
    cbn [BinParser.get_embed]. unfold skin_mesh_ok in Hok.
    apply andb_true_iff in Hok as [Hok Hovs].
    apply andb_true_iff in Hok as [Ht Hm].
    destruct sm as [name sub_fields]. cbn [items_of] in *.
    by apply process_sub_fields_same.
  - cbn [negb]. by apply IH.
Qed.

Lemma process_entry_same entries_map results pair :
  (∀ k e, entries_map !! k = Some e → material_ok e = true) →
  entry_ok pair.2 = true →
  RitobinDll.process_entry entries_map results pair
  = BinParser.process_entry entries_map results pair.
Proof.
  intros Hmat Hok.
  unfold RitobinDll.process_entry, BinParser.process_entry.
  destruct (pair.2) as [| | |entry| | | |]; try done.
  cbn [BinParser.get_embed]. unfold entry_ok in Hok.
  apply andb_true_iff in Hok as [Hok _].
  apply andb_true_iff in Hok as [Hs Hsm].
  unfold BinParser.find_field in *. by apply process_fields_same.
Qed.

Lemma comparable_materials pairs k e :
  forallb (λ pair, entry_ok pair.2) pairs = true →
  BinParser.build_entries_map pairs !! k = Some e →
  material_ok e = true.
Proof.
  intros Hok Hk. destruct (build_entries_map_values _ _ _ Hk) as [key Hin].
  rewrite forallb_forall in Hok. apply list_elem_of_In, Hok in Hin.
  cbn [snd entry_ok] in Hin. by apply andb_true_iff in Hin as [_ ?].
Qed.

(** C10, as the code has it.  On a document in which no object read by the
    extractors repeats a hash they look for, no material link is a [HashId],
    no material has its samplers in a [ListB] and no override is named
    "BASE", bin_parser.cpp and ritobin_dll.cpp collect the same mapping. *)
Theorem extractors_agree bin :
  comparable bin = true →
  RitobinDll.collect bin = BinParser.collect bin.
Proof.
  unfold comparable, RitobinDll.collect, BinParser.collect.
  destruct (sections bin !! "entries") as [v|]; [|done].
  destruct v as [| | | | | |pairs|]; try done. intros Hok.
  rewrite build_entries_map_same.
  apply foldl_same, Forall_forall. intros pair Hin results.
  apply process_entry_same.
  - intros k e. by apply comparable_materials.
  - rewrite forallb_forall in Hok. by apply list_elem_of_In, Hok in Hin.
Qed.

Lemma extractors_agree_witness :
  RitobinDll.collect plain_document = BinParser.collect plain_document
  ∧ BinParser.collect plain_document
    = {[ "BASE" := "base.tex"; "Body" := "body.tex"; "Hair" := "a.tex" ]}.
Proof.
  split.
  - apply (extractors_agree plain_document). vm_compute. reflexivity.
  - vm_compute. reflexivity.
Defined.

(** The two extractors part on three kinds of documents: samplers in a
    [ListB], a link given as a [HashId], a hash that occurs twice in one
    object. *)
Lemma extractors_differ :
  (BinParser.collect (linked_document (ListB two_samplers)) !! "Body"
     = Some "a.tex"
   ∧ RitobinDll.collect (linked_document (ListB two_samplers)) !! "Body"
     = None)
  ∧ (BinParser.collect hashid_link_document !! "Body" = None
     ∧ RitobinDll.collect hashid_link_document !! "Body" = Some "a.tex")
  ∧ (BinParser.collect duplicate_field_document !! "Body" = Some "first.tex"
     ∧ RitobinDll.collect duplicate_field_document !! "Body"
       = Some "last.tex")
  ∧ BinParser.collect (linked_document (ListB two_samplers))
    ≠ RitobinDll.collect (linked_document (ListB two_samplers)).
Proof.
  assert (BinParser.collect (linked_document (ListB two_samplers)) !! "Body"
          = Some "a.tex") as HA by (vm_compute; reflexivity).
  assert (RitobinDll.collect (linked_document (ListB two_samplers)) !! "Body"
          = None) as HB by (vm_compute; reflexivity).
  split; [done|]. split; [split; vm_compute; reflexivity|].
  split; [split; vm_compute; reflexivity|].
  intros Heq. rewrite Heq, HB in HA. discriminate.
Qed.

(** An override named "BASE" makes them part as well, when the overrides
    stand before the texture of the skin. *)
Lemma base_named_override_parts :
  BinParser.collect base_named_document !! "BASE" = Some "over.tex"
  ∧ RitobinDll.collect base_named_document !! "BASE" = Some "base.tex".
Proof. split; vm_compute; reflexivity. Qed.

End ExtractProofs.

(** * Further properties of the converter *)

Module ConvertMore.
Import Tex Dds Ritoddstex ConvertSpec MoreSpec ConvertProofs.

(** *** The two copies of the converter *)

Lemma lol_mip_size_same h i :
  LolNativeConvert.mip_size h i = mip_size h i.
Proof.
  unfold LolNativeConvert.mip_size, mip_size.
  rewrite get_block_size_same.
  change (LolNativeConvert.get_bytes_per_block (tex_format h))
    with (get_bytes_per_block (tex_format h)).
  assert (∀ x, (if x <? 1 then 1 else x) = MAX x 1) as Hclamp.
  { intros x. unfold MAX. destruct (Z.ltb_spec x 1), (Z.gtb_spec x 1); lia. }
  by rewrite !Hclamp.
Qed.

Lemma lol_copy_mips_same h data n i cur ptr dst :
  LolNativeConvert.copy_mips h data n i cur ptr dst
  = copy_mips h data n i cur ptr dst.
Proof.
  revert i cur ptr dst. induction n as [|n IH]; intros i cur ptr dst; [done|].
  cbn [LolNativeConvert.copy_mips copy_mips]. rewrite lol_mip_size_same.
  destruct (_ <? 0); [done|].
  destruct (memcpy _ _ _ _ _); [|done]. cbn [mbind option_bind]. apply IH.
Qed.

(** The conversion uses [calc_mipmap_count] on the dimensions of the parsed
    header only. *)
Lemma tex_to_dds_bytes_calc calc calc' malloc_ok tex_file :
  (∀ w h, 0 ≤ w < 2 ^ 16 → 0 ≤ h < 2 ^ 16 → calc w h = calc' w h) →
  tex_to_dds_bytes calc malloc_ok tex_file
  = tex_to_dds_bytes calc' malloc_ok tex_file.
Proof.
  intros Hcalc. destruct tex_file as [raw|]; [|done].
  unfold tex_to_dds_bytes.
  destruct (_ <? _); [done|].
  destruct (fread_TEX_HEADER raw) as [h|] eqn:Hread; [|done].
  destruct (fread_TEX_HEADER_range _ _ Hread) as (Hw & Hh & _).
  assert (mipmap_count_of calc h = mipmap_count_of calc' h) as Hcount.
  { unfold mipmap_count_of. by rewrite Hcalc. }
  assert (∀ pf, make_dds_header calc h pf = make_dds_header calc' h pf)
    as Hheader.
  { intros pf. unfold make_dds_header. by rewrite Hcount. }
  destruct (magic_differs h); [done|].
  destruct (select_pixelformat (tex_format h)) as [[pf dx]|]; [|done].
  by rewrite Hheader, Hcount.
Qed.

(** X1.  On every file and with every allocator, [tex_to_dds_bytes] of
    lol_native.cpp returns what [tex_to_dds_bytes] of ritoddstex_dll.c
    returns: the same status, or the same buffer and length. *)
Theorem lol_native_converter_same malloc_ok tex_file :
  LolNativeConvert.tex_to_dds_bytes malloc_ok tex_file
  = Ritoddstex.convert malloc_ok tex_file.
Proof.
  unfold Ritoddstex.convert.
  rewrite <- (tex_to_dds_bytes_calc LolNative.calc_mipmap_count
                calc_mipmap_count).
  2: { intros w h Hw Hh. apply calc_mipmap_count_same; lia. }
  destruct tex_file as [raw|]; [|done].
  unfold LolNativeConvert.tex_to_dds_bytes, tex_to_dds_bytes.
  destruct (_ <? _); [done|].
  destruct (fread_TEX_HEADER raw) as [h|]; [|done].
  destruct (magic_differs h); [done|].
  destruct (select_pixelformat (tex_format h)) as [[pf dx]|]; [|done].
  destruct (negb (malloc_ok _)); [done|].
  destruct (memcpy _ _ _ _ _) as [d1|]; [|done]. cbn [or_fault].
  destruct (memcpy _ _ _ _ _) as [d2|]; [|done]. cbn [or_fault].
  destruct (if dx then _ else _) as [d3|]; [|done]. cbn [or_fault].
  destruct (negb (malloc_ok _)); [done|].
  destruct (negb (_ >=? _)); [done|].
  by rewrite lol_copy_mips_same.
Qed.

(** *** Allocations and the shape of a result *)

(** The reduction of the function on a valid container, with an allocator
    that may refuse. *)
Lemma tex_to_dds_bytes_allocs calc malloc_ok raw h pf need_dx10 :
  valid_container raw h pf need_dx10 →
  let headers := dds_headers calc h pf need_dx10 in
  let dds_data := (Some <$> headers) ++ replicate (length (payload raw)) None in
  tex_to_dds_bytes calc malloc_ok (Some raw)
  = if negb (malloc_ok (Zlen headers + Zlen (payload raw)))
    then Failure (-4)
    else if negb (malloc_ok (Zlen (payload raw))) then Failure (-4)
    else or_fault
      (if negb (has_mipmaps h =? 0) && (mipmap_count_of calc h >? 0)
       then copy_mips h (payload raw) (Z.to_nat (mipmap_count_of calc h)) 0
                      (Zlen (payload raw)) (Zlen headers) dds_data
       else memcpy dds_data (Zlen headers) (payload raw) 0
                   (Zlen (payload raw)))
      (λ d, Success d (Zlen headers + Zlen (payload raw))).
Proof.
  intros Hvalid headers dds_data.
  destruct (valid_payload_length _ _ _ _ Hvalid) as [Hpay H12].
  destruct Hvalid as (Hlen & Hread & Hmagic & Hsel).
  destruct (select_pixelformat_cases _ _ _ Hsel) as [_ Hcc].
  pose proof (dds_headers_length calc h pf need_dx10 Hcc) as Hhl.
  fold headers in Hhl.
  assert (Zlen headers = 128 ∨ Zlen headers = 148) as Hh.
  { rewrite Hhl. destruct need_dx10; [right|left]; done. }
  unfold tex_to_dds_bytes.
  rewrite (u32_small (Zlen raw)) by (pose proof (Zlen_nonneg raw); lia).
  destruct (Z.ltb_spec (Zlen raw) sizeof_TEX_HEADER) as [Hlt|_];
    [unfold sizeof_TEX_HEADER in Hlt; lia|].
  rewrite Hread, Hmagic, Hsel.
  rewrite (u32_small (Zlen raw - _)) by (unfold sizeof_TEX_HEADER; lia).
  rewrite <- Hhl.
  rewrite (u32_small (Zlen headers)) by lia.
  replace (Zlen raw - sizeof_TEX_HEADER) with (Zlen (payload raw))
    by (unfold sizeof_TEX_HEADER; lia).
  rewrite (u32_small (_ + _)) by lia.
  destruct (malloc_ok (Zlen headers + Zlen (payload raw))); cbn [negb];
    [|done].
  assert (malloc (Zlen headers + Zlen (payload raw))
          = (Some <$> []) ++ replicate (length headers + length (payload raw)) None)
    as ->.
  { unfold malloc, Zlen. by rewrite <- Nat2Z.inj_add, Nat2Z.id. }
  assert (length headers
          = (4 + (124 + if need_dx10 then 20 else 0))%nat) as Hnat.
  { unfold Zlen in Hhl. unfold sizeof_DDS_HEADER in Hhl.
    destruct need_dx10; lia. }
  assert (length (bytes_of_DDS_HEADER (make_dds_header calc h pf)) = 124%nat)
    as Hbl.
  { by apply bytes_of_DDS_HEADER_length. }
  erewrite (memcpy_append [] DDS_MAGIC); [|done|done|done|simpl; lia].
  cbn [or_fault app].
  erewrite (memcpy_append DDS_MAGIC (bytes_of_DDS_HEADER _));
    [|done|done|unfold Zlen; by rewrite Hbl|rewrite Hbl, Hnat; simpl; lia].
  cbn [or_fault].
  match goal with
  | |- context [or_fault (if need_dx10 then ?a else ?b)] =>
      assert ((if need_dx10 then a else b) = Some dds_data) as ->
  end.
  { rewrite Hbl, Hnat. unfold dds_data, headers, dds_headers.
    destruct need_dx10.
    - erewrite (memcpy_append (DDS_MAGIC ++ _) dx10_header);
        [|done| |done|simpl; lia].
      + rewrite <- app_assoc.
        replace (4 + (124 + 20) + length (payload raw) - length DDS_MAGIC
                 - 124 - length dx10_header)%nat
          with (length (payload raw)) by (simpl; lia).
        done.
      + rewrite Zlen_app. unfold Zlen. by rewrite Hbl.
    - rewrite app_nil_r.
      replace (4 + (124 + 0) + length (payload raw) - length DDS_MAGIC - 124)%nat
        with (length (payload raw)) by (simpl; lia).
      done. }
  cbn [or_fault].
  destruct (malloc_ok (Zlen (payload raw))); cbn [negb]; [|done].
  assert (drop (Z.to_nat sizeof_TEX_HEADER) raw = payload raw) as -> by done.
  destruct (Z.geb_spec (Zlen (payload raw)) (Zlen (payload raw))); [|lia].
  cbn [negb].
  assert (take (Z.to_nat (Zlen (payload raw))) (payload raw) = payload raw)
    as ->.
  { unfold Zlen. by rewrite Nat2Z.id, firstn_all. }
  rewrite (s32_small (Zlen (payload raw))) by lia.
  done.
Qed.

(** A copy at or after an offset leaves what stands before the offset. *)
Lemma memcpy_prefix dst d src s n dst' (p : nat) :
  memcpy dst d src s n = Some dst' → Z.of_nat p ≤ d →
  take p dst' = take p dst.
Proof.
  unfold memcpy, Zlen. case_bool_decide as Hb; [|done].
  intros [= <-] Hp. destruct Hb as (Hn & Hd & Hdn & Hs & Hsn).
  rewrite take_app_le by (rewrite length_take; lia).
  rewrite take_take. f_equal. lia.
Qed.

(** The loop keeps the length of the buffer and what stands before its
    write position. *)
Lemma copy_mips_keeps h data n i cur ptr dst dst' (p : nat) :
  copy_mips h data n i cur ptr dst = Some dst' → Z.of_nat p ≤ ptr →
  length dst' = length dst ∧ take p dst' = take p dst.
Proof.
  revert i cur ptr dst. induction n as [|n IH]; intros i cur ptr dst.
  - by intros [= <-].
  - cbn [copy_mips]. destruct (_ <? 0); [by intros [= <-]|].
    destruct (memcpy dst ptr data _ _) as [d|] eqn:Hcopy; [|done].
    cbn [mbind option_bind]. intros Hrest Hp.
    pose proof (mip_size_range h i).
    destruct (IH _ _ _ _ Hrest ltac:(lia)) as [Hlen Hpre].
    rewrite Hlen, Hpre, (memcpy_length _ _ _ _ _ _ Hcopy).
    by rewrite (memcpy_prefix _ _ _ _ _ _ p Hcopy).
Qed.

Lemma need_dx10_format format pf need_dx10 :
  select_pixelformat format = Some (pf, need_dx10) →
  need_dx10 = (format =? TEX_FORMAT_RGBA16).
Proof.
  unfold select_pixelformat.
  repeat (case_format; [intros [= <- <-]; done|]). done.
Qed.

(** X2.  Whenever the conversion of a valid container returns a buffer,
    the buffer has the reported length, that length is the length of the file
    plus 116, or plus 136 for the RGBA16 format with its extended header, and
    the buffer starts with the complete headers, whatever the loop over the
    levels did. *)
Theorem success_shape calc malloc_ok raw h pf need_dx10 out size :
  valid_container raw h pf need_dx10 →
  tex_to_dds_bytes calc malloc_ok (Some raw) = Success out size →
  Zlen out = size
  ∧ size = Zlen raw + (if tex_format h =? TEX_FORMAT_RGBA16 then 136 else 116)
  ∧ take (length (dds_headers calc h pf need_dx10)) out
    = Some <$> dds_headers calc h pf need_dx10.
Proof.
  intros Hvalid. rewrite (tex_to_dds_bytes_allocs _ _ _ _ _ _ Hvalid).
  destruct (valid_payload_length _ _ _ _ Hvalid) as [Hpay H12].
  destruct Hvalid as (Hlen & Hread & Hmagic & Hsel).
  destruct (select_pixelformat_cases _ _ _ Hsel) as [_ Hcc].
  set (headers := dds_headers calc h pf need_dx10) in *.
  assert (Zlen headers
          = 4 + sizeof_DDS_HEADER
            + if tex_format h =? TEX_FORMAT_RGBA16 then 20 else 0) as Hhl.
  { unfold headers. rewrite (dds_headers_length calc h pf need_dx10 Hcc).
    by rewrite (need_dx10_format _ _ _ Hsel). }
  destruct (negb (malloc_ok _)); [done|].
  destruct (negb (malloc_ok _)); [done|].
  set (dds_data := (Some <$> headers) ++ replicate (length (payload raw)) None).
  assert (length dds_data = (length headers + length (payload raw))%nat)
    as Hdl.
  { unfold dds_data. by rewrite length_app, length_fmap, length_replicate. }
  assert (take (length headers) dds_data = Some <$> headers) as Hdp.
  { unfold dds_data. by rewrite take_app_length' by (by rewrite length_fmap). }
  assert (∀ d, length d = length dds_data →
               take (length headers) d = take (length headers) dds_data →
               Success d (Zlen headers + Zlen (payload raw)) = Success out size →
               Zlen out = size
               ∧ size = Zlen raw + (if tex_format h =? TEX_FORMAT_RGBA16
                                    then 136 else 116)
               ∧ take (length headers) out = Some <$> headers) as Hfinish.
  { intros d Hd Hp [= <- <-]. split; [|split].
    - unfold Zlen in *. rewrite Hd, Hdl. lia.
    - rewrite Hhl, Hpay. unfold sizeof_DDS_HEADER.
      destruct (tex_format h =? TEX_FORMAT_RGBA16); lia.
    - by rewrite Hp. }
  destruct (negb (has_mipmaps h =? 0) && (mipmap_count_of calc h >? 0)).
  - destruct (copy_mips _ _ _ _ _ _ _) as [d|] eqn:Hloop; [|done].
    cbn [or_fault].
    destruct (copy_mips_keeps _ _ _ _ _ _ _ _ (length headers) Hloop)
      as [Hd Hp]; [done|].
    by apply Hfinish.
  - destruct (memcpy _ _ _ _ _) as [d|] eqn:Hcopy; [|done]. cbn [or_fault].
    apply Hfinish.
    + by apply memcpy_length in Hcopy.
    + by apply (memcpy_prefix _ _ _ _ _ _ (length headers)) in Hcopy.
Qed.

Lemma success_shape_witness :
  ∃ out size,
    convert (λ _, true) (Some two_level_input) = Success out size
    ∧ Zlen out = size ∧ size = 28 + 116
    ∧ take 128 out
      = Some <$> dds_headers calc_mipmap_count (parsed_8x8 x0a x01)
                   dxt1_pixelformat false.
Proof.
  eexists _, _. split; [vm_compute; reflexivity|].
  apply (success_shape calc_mipmap_count (λ _, true) two_level_input
           (parsed_8x8 x0a x01) dxt1_pixelformat false).
  - repeat split; vm_compute; reflexivity.
  - vm_compute. reflexivity.
Defined.

(** X3.  On a valid container the conversion returns the status of a failed
    allocation exactly when the allocator refuses the output buffer or the
    buffer for the payload. *)
Theorem allocation_failure_exact calc malloc_ok raw h pf need_dx10 :
  valid_container raw h pf need_dx10 →
  tex_to_dds_bytes calc malloc_ok (Some raw) = Failure AllocationFailure
  ↔ malloc_ok (Zlen (dds_headers calc h pf need_dx10) + Zlen (payload raw))
    = false
    ∨ malloc_ok (Zlen (payload raw)) = false.
Proof.
  intros Hvalid. rewrite (tex_to_dds_bytes_allocs _ _ _ _ _ _ Hvalid).
  destruct (malloc_ok (_ + _)); cbn [negb]; [|by split; [left|]].
  destruct (malloc_ok _); cbn [negb]; [|by split; [right|]].
  unfold or_fault. split; [|by intros [|]].
  by repeat case_match.
Qed.

Lemma allocation_failure_exact_witness :
  convert (λ n, n <? 100) (Some two_level_input) = Failure AllocationFailure.
Proof.
  apply (allocation_failure_exact calc_mipmap_count (λ n, n <? 100)
           two_level_input (parsed_8x8 x0a x01) dxt1_pixelformat false).
  - repeat split; vm_compute; reflexivity.
  - left. vm_compute. reflexivity.
Defined.

(** *** Every payload length *)

Lemma fitting_levels_le h room n i : (fitting_levels h room n i ≤ n)%nat.
Proof.
  revert room i. induction n as [|n IH]; intros room i; [done|].
  cbn [fitting_levels]. destruct (_ <=? _); [|lia].
  specialize (IH (room - mip_size h (Z.of_nat i)) (S i)). lia.
Qed.

(** The levels counted by [fitting_levels] fit, and the next one, if there
    is one, does not. *)
Lemma fitting_levels_spec h n : ∀ room i,
  0 ≤ room →
  let k := fitting_levels h room n i in
  mip_total h (i + k) - mip_total h i ≤ room
  ∧ (k = n ∨ room - (mip_total h (i + k) - mip_total h i)
             < mip_size h (Z.of_nat (i + k))).
Proof.
  induction n as [|n IH]; intros room i Hroom; cbn [fitting_levels].
  - rewrite Nat.add_0_r. cbn zeta.
    pose proof (mip_size_range h (Z.of_nat i)). split; [lia|by left].
  - destruct (Z.leb_spec (mip_size h (Z.of_nat i)) room) as [Hfit|Hno].
    + destruct (IH (room - mip_size h (Z.of_nat i)) (S i) ltac:(lia))
        as [Hle Hend].
      cbn zeta in *.
      replace (i + S (fitting_levels h (room - mip_size h (Z.of_nat i)) n (S i)))%nat
        with (S i + fitting_levels h (room - mip_size h (Z.of_nat i)) n (S i))%nat
        by lia.
      rewrite mip_total_S in Hle, Hend. split; [lia|].
      destruct Hend as [->|Hend]; [by left|right; lia].
    + cbn zeta. rewrite Nat.add_0_r, Z.sub_diag. split; [|right; lia].
      pose proof (mip_size_range h (Z.of_nat i)). lia.
Qed.

(** X4.  With mipmaps, and no level larger than [2 ^ 31] bytes, the
    conversion of a valid container succeeds for every payload length: it
    copies the levels that fit one after the other in front of the end of the
    payload, in increasing order, and leaves the rest of the payload area
    unwritten. *)
Theorem convert_every_payload calc malloc_ok raw h pf need_dx10 :
  always malloc_ok → valid_container raw h pf need_dx10 →
  has_mipmaps h ≠ 0 → 0 < mipmap_count_of calc h →
  (∀ i, 0 ≤ i < mipmap_count_of calc h → mip_size h i ≤ 2 ^ 31) →
  let k := fitting_levels h (Zlen (payload raw))
             (Z.to_nat (mipmap_count_of calc h)) 0 in
  tex_to_dds_bytes calc malloc_ok (Some raw)
  = Success
      ((Some <$> (dds_headers calc h pf need_dx10
                  ++ mip_chunks h (payload raw) k))
       ++ replicate (Z.to_nat (Zlen (payload raw) - mip_total h k)) None)
      (Zlen (dds_headers calc h pf need_dx10) + Zlen (payload raw)).
Proof.
  intros Hmalloc Hvalid Hmip Hcount Hsizes k.
  destruct (valid_payload_length _ _ _ _ Hvalid) as [Hpay H12].
  pose proof (fitting_levels_le h (Zlen (payload raw))
                (Z.to_nat (mipmap_count_of calc h)) 0) as Hle.
  destruct (fitting_levels_spec h (Z.to_nat (mipmap_count_of calc h))
              (Zlen (payload raw)) 0 (Zlen_nonneg _)) as [Hfit Hend].
  fold k in Hle, Hfit, Hend. cbn [Nat.add mip_total] in Hfit, Hend.
  rewrite Z.sub_0_r in Hfit, Hend.
  apply tex_to_dds_bytes_levels; [done|done|done|done|lia|done|].
  destruct Hend as [|Hend]; [by left|].
  destruct (decide (k = Z.to_nat (mipmap_count_of calc h))); [by left|right].
  pose proof (Hsizes (Z.of_nat k) ltac:(lia)) as Hbound.
  pose proof (mip_size_range h (Z.of_nat k)).
  destruct Hvalid as (Hlen & _).
  unfold s32.
  replace ((Zlen (payload raw) - mip_total h k - mip_size h (Z.of_nat k))
           mod 2 ^ 32)
    with (Zlen (payload raw) - mip_total h k - mip_size h (Z.of_nat k)
          + 2 ^ 32).
  - destruct (Z.ltb_spec (Zlen (payload raw) - mip_total h k
                          - mip_size h (Z.of_nat k) + 2 ^ 32) (2 ^ 31)); lia.
  - apply Z.mod_unique with (-1); lia.
Qed.

Lemma convert_every_payload_witness :
  convert (λ _, true)
    (Some (header_8x8 x0a x01 ++ replicate 2 x12 ++ replicate 32 x10))
  = Success
      ((Some <$> (dds_headers calc_mipmap_count (parsed_8x8 x0a x01)
                    dxt1_pixelformat false
                  ++ replicate 32 x10))
       ++ replicate 2 None)
      162.
Proof.
  apply (convert_every_payload calc_mipmap_count (λ _, true)
           (header_8x8 x0a x01 ++ replicate 2 x12 ++ replicate 32 x10)
           (parsed_8x8 x0a x01) dxt1_pixelformat false).
  - intros n. reflexivity.
  - repeat split; vm_compute; reflexivity.
  - vm_compute. discriminate.
  - vm_compute. reflexivity.
  - intros i Hi. change (mipmap_count_of calc_mipmap_count (parsed_8x8 x0a x01))
      with 4 in Hi.
    assert (i = 0 ∨ i = 1 ∨ i = 2 ∨ i = 3) as Hcases by lia.
    destruct Hcases as [Hi'|[Hi'|[Hi'|Hi']]]; subst i; vm_compute;
      discriminate.
Defined.

(** *** Level sizes *)

Lemma block_parameters format :
  (get_block_size format = 4 ∧ 0 ≤ get_bytes_per_block format ≤ 16)
  ∨ (get_block_size format = 1 ∧ 0 ≤ get_bytes_per_block format ≤ 8).
Proof.
  unfold get_block_size, get_bytes_per_block.
  destruct (format =? TEX_FORMAT_DXT1), (format =? TEX_FORMAT_DXT5),
    (format =? TEX_FORMAT_BGRA8), (format =? TEX_FORMAT_RGBA16);
    cbn [orb]; lia.
Qed.

Lemma shiftr_le x i : 0 ≤ x → 0 ≤ i → 0 ≤ Z.shiftr x i ≤ x.
Proof.
  intros Hx Hi. rewrite Z.shiftr_div_pow2 by done.
  assert (0 < 2 ^ i) by (apply Z.pow_pos_nonneg; lia).
  split; [apply Z.div_pos; lia|].
  apply Z.div_le_upper_bound; [lia|]. nia.
Qed.

(** X5.  For an image of at most 16384 by 16384 pixels no level size wraps
    around or exceeds [2 ^ 31] bytes: the size of level [i] is the number of
    bytes per block times the numbers of block columns and block rows of the
    halved dimensions. *)
Theorem level_size_bounded h i :
  0 ≤ image_width h ≤ 16384 → 0 ≤ image_height h ≤ 16384 → 0 ≤ i →
  let block_size := get_block_size (tex_format h) in
  let mip_width := Z.max (Z.shiftr (image_width h) i) 1 in
  let mip_height := Z.max (Z.shiftr (image_height h) i) 1 in
  mip_size h i
  = get_bytes_per_block (tex_format h)
    * ((mip_width + block_size - 1) / block_size)
    * ((mip_height + block_size - 1) / block_size)
  ∧ 0 ≤ mip_size h i ≤ 2 ^ 31.
Proof.
  intros Hw Hh Hi block_size mip_width mip_height.
  pose proof (shiftr_le (image_width h) i ltac:(lia) Hi) as Hsw.
  pose proof (shiftr_le (image_height h) i ltac:(lia) Hi) as Hsh.
  unfold mip_size. rewrite !MAX_max. fold block_size mip_width mip_height.
  assert (1 ≤ mip_width ≤ 16384) as Hmw by (unfold mip_width; lia).
  assert (1 ≤ mip_height ≤ 16384) as Hmh by (unfold mip_height; lia).
  clearbody mip_width mip_height.
  destruct (block_parameters (tex_format h)) as [[Hbs Hbpb]|[Hbs Hbpb]];
    fold block_size in Hbs; rewrite Hbs in *;
    rewrite !(u32_small (_ + _ - 1)) by lia.
  - assert (1 ≤ (mip_width + 4 - 1) / 4 ≤ 4096) as Hbw.
    { split; [apply Z.div_le_lower_bound; lia|].
      apply Z.lt_succ_r, Z.div_lt_upper_bound; lia. }
    assert (1 ≤ (mip_height + 4 - 1) / 4 ≤ 4096) as Hbh.
    { split; [apply Z.div_le_lower_bound; lia|].
      apply Z.lt_succ_r, Z.div_lt_upper_bound; lia. }
    set (bw := (mip_width + 4 - 1) / 4) in *.
    set (bh := (mip_height + 4 - 1) / 4) in *.
    set (bpb := get_bytes_per_block (tex_format h)) in *.
    assert (0 ≤ bw * bh ≤ 4096 * 4096) as Harea by nia.
    assert (0 ≤ bpb * bw * bh ≤ 2 ^ 28) as Hprod
      by (rewrite <- Z.mul_assoc; nia).
    rewrite u32_small by lia. split; [done|lia].
  - rewrite !Z.div_1_r.
    replace (mip_width + 1 - 1) with mip_width by lia.
    replace (mip_height + 1 - 1) with mip_height by lia.
    set (bpb := get_bytes_per_block (tex_format h)) in *.
    assert (0 ≤ mip_width * mip_height ≤ 16384 * 16384) as Harea by nia.
    assert (0 ≤ bpb * mip_width * mip_height ≤ 2 ^ 31) as Hprod
      by (rewrite <- Z.mul_assoc; nia).
    rewrite u32_small by lia. split; [done|lia].
Qed.

Lemma level_size_bounded_witness :
  mip_size (parsed_8x8 x0a x01) 0 = 8 * ((8 + 4 - 1) / 4) * ((8 + 4 - 1) / 4).
Proof.
  refine (proj1 (level_size_bounded (parsed_8x8 x0a x01) 0 _ _ _)).
  - vm_compute. split; discriminate.
  - vm_compute. split; discriminate.
  - lia.
Defined.

(** X6.  For the dimensions of a parsed header that are not both zero, the
    level count lies between 1 and 16, and the last level of the chain is a
    single block: both dimensions are down to one pixel. *)
Theorem last_level_one_block raw h :
  fread_TEX_HEADER raw = Some h →
  1 ≤ Z.max (image_width h) (image_height h) →
  let count := calc_mipmap_count (image_width h) (image_height h) in
  1 ≤ count ≤ 16
  ∧ Z.max (Z.shiftr (image_width h) (count - 1)) 1 = 1
  ∧ Z.max (Z.shiftr (image_height h) (count - 1)) 1 = 1
  ∧ mip_size h (count - 1) = get_bytes_per_block (tex_format h).
Proof.
  intros Hread Hmax count.
  destruct (fread_TEX_HEADER_range _ _ Hread) as (Hw & Hh & _).
  assert (count = Z.log2 (Z.max (image_width h) (image_height h)) + 1)
    as Hcount by (apply calc_mipmap_count_log2; lia).
  set (m := Z.max (image_width h) (image_height h)) in *.
  pose proof (Z.log2_nonneg m) as Hl0.
  assert (Z.log2 m < 16) as Hl16 by (apply Z.log2_lt_pow2; lia).
  destruct (Z.log2_spec m ltac:(lia)) as [Hlow Hhigh].
  assert (0 < 2 ^ Z.log2 m) by (apply Z.pow_pos_nonneg; lia).
  replace (Z.succ (Z.log2 m)) with (Z.log2 m + 1) in Hhigh by lia.
  rewrite Z.pow_add_r in Hhigh by lia. change (2 ^ 1) with 2 in Hhigh.
  assert (∀ x, 0 ≤ x ≤ m → Z.max (Z.shiftr x (count - 1)) 1 = 1) as Hone.
  { intros x Hx. replace (count - 1) with (Z.log2 m) by lia.
    rewrite Z.shiftr_div_pow2 by lia.
    assert (x / 2 ^ Z.log2 m < 2) by (apply Z.div_lt_upper_bound; lia).
    lia. }
  split; [lia|]. split; [apply Hone; lia|]. split; [apply Hone; lia|].
  unfold mip_size. rewrite !MAX_max, !Hone by lia.
  destruct (block_parameters (tex_format h)) as [[-> Hbpb]|[-> Hbpb]];
    rewrite (u32_small (1 + _ - 1)) by lia.
  - change ((1 + 4 - 1) / 4) with 1. rewrite !Z.mul_1_r. apply u32_small. lia.
  - change ((1 + 1 - 1) / 1) with 1. rewrite !Z.mul_1_r. apply u32_small. lia.
Qed.

Lemma last_level_one_block_witness :
  mip_size (parsed_8x8 x0a x01) 3 = 8.
Proof.
  refine (proj2 (proj2 (proj2 (last_level_one_block (header_8x8 x0a x01)
                                 (parsed_8x8 x0a x01) eq_refl _)))).
  vm_compute. discriminate.
Defined.

(** *** The header that is written *)

#[local] Transparent byte_to_Z Z_to_byte.

Lemma byte_round_trip z : byte_to_Z (Z_to_byte z) = z mod 256.
Proof.
  unfold byte_to_Z, Z_to_byte.
  assert (0 ≤ z mod 256 < 256) as Hr by (apply Z.mod_pos_bound; lia).
  pose proof (Byte.to_of_N_option_map (Z.to_N (z mod 256))) as Hmap.
  destruct (N.leb_spec (Z.to_N (z mod 256)) 255) as [_|Hgt]; [|lia].
  destruct (Byte.of_N (Z.to_N (z mod 256))) as [b|]; [|done].
  cbn [option_map default from_option] in *. unfold id.
  injection Hmap as Hb. rewrite Hb. lia.
Qed.

#[local] Opaque byte_to_Z Z_to_byte.

(** The four bytes written for a 32-bit field read back as the field. *)
Lemma le32_sum z :
  0 ≤ z < 2 ^ 32 →
  byte_to_Z (Z_to_byte z) + 256 * byte_to_Z (Z_to_byte (Z.shiftr z 8))
  + 65536 * byte_to_Z (Z_to_byte (Z.shiftr z 16))
  + 16777216 * byte_to_Z (Z_to_byte (Z.shiftr z 24)) = z.
Proof.
  intros Hz. rewrite !byte_round_trip, !Z.shiftr_div_pow2 by lia.
  change (2 ^ 8) with 256. change (2 ^ 16) with (256 * 256).
  change (2 ^ 24) with (256 * 256 * 256).
  rewrite <- !Z.div_div by lia.
  pose proof (Z.div_mod z 256 ltac:(lia)) as H0.
  pose proof (Z.div_mod (z / 256) 256 ltac:(lia)) as H1.
  pose proof (Z.div_mod (z / 256 / 256) 256 ltac:(lia)) as H2.
  assert (0 ≤ z / 256 / 256 / 256 < 256) as H3.
  { split; [repeat apply Z.div_pos; lia|].
    repeat (apply Z.div_lt_upper_bound; [lia|]). lia. }
  rewrite (Z.mod_small (z / 256 / 256 / 256)) by lia. lia.
Qed.

Lemma u32_round_trip z rest :
  0 ≤ z < 2 ^ 32 → read_u32 (bytes_of_u32 z ++ rest) 0 = z.
Proof. intros Hz. unfold read_u32, bytes_of_u32. cbn [drop app]. by apply le32_sum. Qed.

(** X7.  The headers written for a parsed header carry its dimensions: the
    bytes begin with the magic "DDS ", and read as little-endian fields they
    give the header size 124 at offset 4, the height at offset 12, the width
    at offset 16 and the level count at offset 28. *)
Theorem header_fields_round_trip raw h pf need_dx10 :
  fread_TEX_HEADER raw = Some h →
  let headers := dds_headers calc_mipmap_count h pf need_dx10 in
  take 4 headers = DDS_MAGIC
  ∧ read_u32 headers 4 = 124
  ∧ read_u32 headers 12 = image_height h
  ∧ read_u32 headers 16 = image_width h
  ∧ read_u32 headers 28 = mipmap_count_of calc_mipmap_count h.
Proof.
  intros Hread headers.
  destruct (fread_TEX_HEADER_range _ _ Hread) as (Hw & Hh & _).
  assert (0 ≤ mipmap_count_of calc_mipmap_count h < 2 ^ 32) as Hcount.
  { unfold mipmap_count_of. destruct (_ =? 0); [lia|].
    destruct (Z.eq_dec (Z.max (image_width h) (image_height h)) 0) as [E|E].
    - assert (image_width h = 0) as -> by lia.
      assert (image_height h = 0) as -> by lia. by vm_compute.
    - rewrite calc_mipmap_count_log2 by lia.
      pose proof (Z.log2_nonneg (Z.max (image_width h) (image_height h))).
      assert (Z.log2 (Z.max (image_width h) (image_height h)) < 16)
        by (apply Z.log2_lt_pow2; lia).
      lia. }
  unfold headers, dds_headers, bytes_of_DDS_HEADER, read_u32, DDS_MAGIC,
    bytes_of_u32.
  cbn [dwSize dwFlags dwHeight dwWidth dwPitchOrLinearSize dwDepth
       dwMipMapCount make_dds_header app drop take].
  split; [done|]. split; [by apply le32_sum|].
  split; [apply le32_sum; lia|]. split; [apply le32_sum; lia|].
  by apply le32_sum.
Qed.

Lemma header_fields_round_trip_witness :
  read_u32 (dds_headers calc_mipmap_count (parsed_8x8 x0a x01)
              dxt1_pixelformat false) 28 = 4.
Proof.
  rewrite (proj2 (proj2 (proj2 (proj2
             (header_fields_round_trip (header_8x8 x0a x01)
                (parsed_8x8 x0a x01) dxt1_pixelformat false eq_refl))))).
  vm_compute. reflexivity.
Defined.

(** *** Statuses and the empty image *)

(** X8.  A failure of the conversion carries one of the four statuses of
    the header comment, and the status of a file that cannot be opened is
    returned for such a file only. *)
Theorem failure_status_domain calc malloc_ok tex_file status :
  tex_to_dds_bytes calc malloc_ok tex_file = Failure status →
  status ∈ [OpenFailed; InvalidInput; UnsupportedFormat; AllocationFailure]
  ∧ (status = OpenFailed ↔ tex_file = None).
Proof.
  rewrite list_elem_of_In.
  destruct tex_file as [raw|]; cbn [tex_to_dds_bytes].
  - unfold or_fault.
    repeat case_match; intros [= <-];
      (split; [cbn; tauto|split; discriminate]).
  - intros [= <-]. split; [cbn; tauto|done].
Qed.

Lemma failure_status_domain_witness :
  UnsupportedFormat
  ∈ [OpenFailed; InvalidInput; UnsupportedFormat; AllocationFailure].
Proof.
  refine (proj1 (failure_status_domain calc_mipmap_count (λ _, true)
                   (Some (header_8x8 xff x00)) UnsupportedFormat _)).
  vm_compute. reflexivity.
Defined.

(** X9.  A header with [has_mipmaps] set and both dimensions zero has no
    level at all: the payload is copied as it is, and the primary header
    carries the mipmap flag together with a level count of zero. *)
Theorem empty_image_with_mipmaps malloc_ok raw h pf need_dx10 :
  always malloc_ok → valid_container raw h pf need_dx10 →
  has_mipmaps h ≠ 0 → image_width h = 0 → image_height h = 0 →
  convert malloc_ok (Some raw)
  = Success
      (Some <$> (dds_headers calc_mipmap_count h pf need_dx10 ++ payload raw))
      (Zlen (dds_headers calc_mipmap_count h pf need_dx10)
       + Zlen (payload raw))
  ∧ dwMipMapCount (make_dds_header calc_mipmap_count h pf) = 0
  ∧ Z.land (dwFlags (make_dds_header calc_mipmap_count h pf))
           DDS_HEADER_FLAGS_MIPMAP = DDS_HEADER_FLAGS_MIPMAP.
Proof.
  intros Hmalloc Hvalid Hmip Hw Hh.
  assert (mipmap_count_of calc_mipmap_count h = 0) as Hcount.
  { unfold mipmap_count_of. rewrite Hw, Hh. by destruct (_ =? 0). }
  split; [|split].
  - unfold convert.
    rewrite (tex_to_dds_bytes_valid _ _ _ _ _ _ Hmalloc Hvalid), Hcount.
    rewrite andb_false_r.
    erewrite (memcpy_append _ (payload raw)); [|done..].
    cbn [or_fault]. by rewrite Nat.sub_diag, app_nil_r.
  - done.
  - unfold make_dds_header. cbn [dwFlags].
    destruct (Z.eqb_spec (has_mipmaps h) 0); [done|]. by vm_compute.
Qed.

Lemma empty_image_with_mipmaps_witness :
  ∃ out,
    convert (λ _, true)
      (Some ([x54; x45; x58; x00;  x00; x00;  x00; x00;  x00; x14; x00; x01]
             ++ [x01; x02; x03]))
    = Success out 131
    ∧ drop 128 out = [Some x01; Some x02; Some x03].
Proof.
  eexists. split.
  - refine (proj1 (empty_image_with_mipmaps (λ _, true)
                     ([x54; x45; x58; x00;  x00; x00;  x00; x00;
                       x00; x14; x00; x01] ++ [x01; x02; x03])
                     (mkTexHeader [x54; x45; x58; x00] (le16 x00 x00)
                        (le16 x00 x00) (byte_to_Z x00) (byte_to_Z x14)
                        (byte_to_Z x00) (byte_to_Z x01))
                     bgra8_pixelformat false _ _ _ _ _)).
    + intros n. reflexivity.
    + repeat split; vm_compute; reflexivity.
    + vm_compute. discriminate.
    + vm_compute. reflexivity.
    + vm_compute. reflexivity.
  - vm_compute. reflexivity.
Defined.

End ConvertMore.

(** * Further properties of the extractors *)

Module ExtractMore.
Import Bin ExtractSpec MoreSpec ExtractProofs.

(** *** What the results hold *)

Lemma clean_empty : clean ∅.
Proof. intros k v. by rewrite lookup_empty. Qed.

Lemma clean_insert results k v :
  clean results → k ≠ "" → v ≠ "" → clean (<[k := v]> results).
Proof.
  intros Hc Hk Hv k' v'. destruct (decide (k = k')) as [<-|Hne].
  - rewrite lookup_insert_eq. by intros [= <-].
  - rewrite lookup_insert_ne by done. apply Hc.
Qed.

Lemma foldl_keeps {A B} (P : A → Prop) (f : A → B → A) (l : list B) a :
  (∀ a x, P a → P (f a x)) → P a → P (foldl f a l).
Proof.
  intros Hf. revert a. induction l as [|x l IH]; intros a Ha; [done|].
  simpl. by apply IH, Hf.
Qed.

Lemma record_base_clean results tex :
  clean results → clean (BinParser.record_base results tex).
Proof.
  intros Hc. unfold BinParser.record_base. case_bool_decide; [done|].
  by apply clean_insert.
Qed.

Lemma process_override_clean entries_map results v :
  clean results → clean (BinParser.process_override entries_map results v).
Proof.
  intros Hc. unfold BinParser.process_override.
  destruct (BinParser.get_embed v) as [ov|]; [|done].
  destruct (BinParser.override_fields ov) as [[n t] l].
  unfold BinParser.record_override.
  do 2 (case_bool_decide; cbn [negb andb]; [done|]). by apply clean_insert.
Qed.

Lemma process_entry_clean entries_map results pair :
  clean results → clean (BinParser.process_entry entries_map results pair).
Proof.
  intros Hc. unfold BinParser.process_entry, BinParser.process_skin_mesh.
  repeat case_match; try done;
    try (apply foldl_keeps; [intros; by apply process_override_clean|]);
    by try apply record_base_clean.
Qed.

Lemma ritobin_process_override_clean entries_map results v :
  clean results → clean (RitobinDll.process_override entries_map results v).
Proof.
  intros Hc. unfold RitobinDll.process_override.
  destruct v as [| | |ov| | | |]; try done.
  destruct (RitobinDll.override_fields ov) as [[n t] l].
  do 2 (case_bool_decide; cbn [negb andb]; [done|]). by apply clean_insert.
Qed.

Lemma ritobin_process_entry_clean entries_map results pair :
  clean results → clean (RitobinDll.process_entry entries_map results pair).
Proof.
  intros Hc. unfold RitobinDll.process_entry.
  destruct (pair.2) as [| | |entry| | | |]; try done.
  apply foldl_keeps; [|done]. clear results Hc. intros results f Hc.
  unfold RitobinDll.process_field.
  destruct (negb _); [done|].
  destruct (value_of f) as [| | |sm| | | |]; try done.
  apply foldl_keeps; [|done]. clear results Hc. intros results sf Hc.
  unfold RitobinDll.process_sub_field.
  assert (clean (if hash (key_of sf) =? RitobinDll.HASH_TEXTURE
                 then
                   if negb (bool_decide
                              (RitobinDll.get_string_value (value_of sf) = ""))
                   then <["BASE" := RitobinDll.get_string_value (value_of sf)]>
                          results
                   else results
                 else results)) as Hbase.
  { destruct (_ =? _); [|done]. case_bool_decide; [done|].
    by apply clean_insert. }
  destruct (_ =? RitobinDll.HASH_MATERIAL_OVERRIDE); [|done].
  destruct (value_of sf); try done.
  apply foldl_keeps; [|done]. intros. by apply ritobin_process_override_clean.
Qed.

(** X10.  Whatever the document, neither extractor returns an entry with
    an empty name or an empty path. *)
Theorem results_never_empty bin k v :
  (BinParser.collect bin !! k = Some v → k ≠ "" ∧ v ≠ "")
  ∧ (RitobinDll.collect bin !! k = Some v → k ≠ "" ∧ v ≠ "").
Proof.
  assert (clean (BinParser.collect bin)) as HA.
  { unfold BinParser.collect. repeat case_match; try apply clean_empty.
    apply foldl_keeps; [|apply clean_empty].
    intros. by apply process_entry_clean. }
  assert (clean (RitobinDll.collect bin)) as HB.
  { unfold RitobinDll.collect. repeat case_match; try apply clean_empty.
    apply foldl_keeps; [|apply clean_empty].
    intros. by apply ritobin_process_entry_clean. }
  split; [apply HA|apply HB].
Qed.

Lemma results_never_empty_witness : "Hair" ≠ "" ∧ "a.tex" ≠ "".
Proof.
  refine (proj1 (results_never_empty plain_document "Hair" "a.tex") _).
  vm_compute. reflexivity.
Defined.

(** *** Entries without a skin *)

Lemma find_in_Some fields h f :
  BinParser.find_in fields h = Some f → f ∈ fields ∧ hash (key_of f) = h.
Proof.
  induction fields as [|g fields IH]; [done|]. cbn [BinParser.find_in].
  destruct (Z.eqb_spec (hash (key_of g)) h) as [Hk|_].
  - intros [= <-]. split; [by left|done].
  - intros Hf. destruct (IH Hf). split; [by right|done].
Qed.

Lemma process_entry_no_skin entries_map results pair :
  no_skin_mesh pair.2 →
  BinParser.process_entry entries_map results pair = results
  ∧ RitobinDll.process_entry entries_map results pair = results.
Proof.
  unfold no_skin_mesh, BinParser.process_entry, RitobinDll.process_entry.
  destruct (pair.2) as [| | |entry| | | |]; try done.
  cbn [BinParser.get_embed]. intros Hno. split.
  - unfold BinParser.find_field.
    destruct (BinParser.find_in _ _) as [f|] eqn:Hf; [|done].
    apply find_in_Some in Hf as [Hin Hk].
    rewrite Forall_forall in Hno. by rewrite (Hno f Hin Hk).
  - induction Hno as [|f fields Hf _ IH]; [done|]. cbn [foldl].
    unfold RitobinDll.process_field at 2. same_hashes.
    destruct (Z.eqb_spec (hash (key_of f))
                BinParser.HASH_SKIN_MESH_PROPERTIES) as [Hk|_];
      cbn [negb]; [|done].
    specialize (Hf Hk). by destruct (value_of f).
Qed.

(** X11.  When no entry of the document has a skinMeshProperties field that
    holds an object, both extractors return the empty mapping. *)
Theorem no_skin_no_results pairs :
  Forall (λ pair : Value * Value, no_skin_mesh pair.2) pairs →
  BinParser.collect (document pairs) = ∅
  ∧ RitobinDll.collect (document pairs) = ∅.
Proof.
  intros Hno.
  assert (∀ em results,
            foldl (BinParser.process_entry em) results pairs = results
            ∧ foldl (RitobinDll.process_entry em) results pairs = results)
    as Hfold.
  { intros em results. induction Hno as [|pair pairs Hp _ IH]; [done|].
    cbn [foldl]. destruct (process_entry_no_skin em results pair Hp)
      as [-> ->]. done. }
  unfold BinParser.collect, RitobinDll.collect, document.
  cbn [sections]. rewrite lookup_singleton_eq.
  split; apply Hfold.
Qed.

Lemma no_skin_no_results_witness :
  BinParser.collect
    (document [(HashId (fnv 2), material (ListA two_samplers));
               (HashId (fnv 3), Text "loose")]) = ∅.
Proof.
  refine (proj1 (no_skin_no_results _ _)).
  repeat constructor; cbn; intros Hk; vm_compute in Hk; discriminate.
Defined.

(** *** The index *)

(** X12.  The index built by the first loop holds, under a hash, the object
    of the last pair whose key is a [HashId] of that hash and whose value is
    an object, and nothing under a hash that no such pair has. *)
Theorem index_last_wins pairs k :
  BinParser.build_entries_map pairs !! k = last_indexed pairs k
  ∧ RitobinDll.build_entries_map pairs !! k = last_indexed pairs k.
Proof.
  assert (BinParser.build_entries_map pairs !! k = last_indexed pairs k)
    as HA; [|split; [done|by rewrite (build_entries_map_same pairs)]].
  unfold BinParser.build_entries_map.
  assert (∀ m : gmap Z Embed,
            foldl BinParser.index_entry m pairs !! k
            = match last_indexed pairs k with
              | Some e => Some e
              | None => m !! k
              end) as Hgen.
  { induction pairs as [|[key v] pairs IH]; intros m; [done|].
    cbn [foldl last_indexed]. rewrite IH.
    destruct (last_indexed pairs k); [done|].
    unfold BinParser.index_entry. cbn [fst snd].
    destruct key as [|key| | | | | |]; try done.
    destruct v as [| | |e| | | |]; try done.
    destruct (Z.eqb_spec (hash key) k) as [->|Hne].
    - by rewrite lookup_insert_eq.
    - by rewrite lookup_insert_ne. }
  rewrite Hgen. by destruct (last_indexed pairs k).
Qed.

(** *** Links *)

Lemma process_prop_nonempty item p_val :
  BinParser.process_prop item = Some p_val → p_val ≠ "".
Proof.
  unfold BinParser.process_prop.
  destruct (BinParser.get_embed item); [|done].
  case_bool_decide; cbn [andb]; [|done].
  case_bool_decide; cbn [negb]; [done|]. by intros [= <-].
Qed.

Lemma scan_props_no_match elems tex_path :
  Forall (λ v, BinParser.process_prop v = None) elems →
  BinParser.scan_props elems tex_path = tex_path.
Proof.
  induction 1 as [|v elems Hv _ IH]; [done|].
  cbn [BinParser.scan_props]. by rewrite Hv.
Qed.

(** X13.  In bin_parser.cpp an override with a name, no direct texture and
    a link that resolves to a material whose samplers are a [ListA] or a
    [ListB] is recorded with the value of the first sampler that
    [process_prop] accepts; samplers after it are not looked at. *)
Theorem linked_texture_first_match entries_map results ov mat_name linked
    mat_entry props_field (as_list2 : bool) before item after p_val :
  BinParser.override_fields ov = (mat_name, "", linked) →
  mat_name ≠ "" → linked ≠ 0 →
  entries_map !! linked = Some mat_entry →
  BinParser.find_field mat_entry BinParser.HASH_SAMPLER_VALUES
    = Some props_field →
  value_of props_field
    = (if as_list2 then ListB else ListA) (before ++ item :: after) →
  Forall (λ v, BinParser.process_prop v = None) before →
  BinParser.process_prop item = Some p_val →
  BinParser.process_override entries_map results (Object ov)
  = <[mat_name := p_val]> results.
Proof.
  intros Hfields Hname Hlinked Hmat Hprops Hvalue Hbefore Hitem.
  pose proof (process_prop_nonempty _ _ Hitem) as Hp.
  unfold BinParser.process_override. cbn [BinParser.get_embed].
  rewrite Hfields. unfold BinParser.resolve_path.
  rewrite bool_decide_eq_true_2 by done.
  destruct (Z.eqb_spec linked 0); [done|]. cbn [negb andb].
  unfold BinParser.follow_link. rewrite Hmat, Hprops, Hvalue.
  assert (BinParser.scan_props (before ++ item :: after) "" = p_val) as Hscan
    by (by apply scan_props_first_match).
  unfold BinParser.record_override.
  destruct as_list2; cbn [BinParser.get_list BinParser.get_list2];
    rewrite Hscan, !bool_decide_eq_false_2 by done; done.
Qed.

Lemma linked_texture_first_match_witness :
  BinParser.process_override
    {[ 2 := mkEmbed (fnv 0)
              [field BinParser.HASH_SAMPLER_VALUES
                 (ListB (Text "skipped" :: two_samplers))] ]}
    ∅ (linked_override (Link (fnv 2)))
  = {[ "Body" := "a.tex" ]}.
Proof.
  refine (linked_texture_first_match _ ∅ _ "Body" 2
            (mkEmbed (fnv 0)
               [field BinParser.HASH_SAMPLER_VALUES
                  (ListB (Text "skipped" :: two_samplers))])
            (field BinParser.HASH_SAMPLER_VALUES
               (ListB (Text "skipped" :: two_samplers)))
            true [Text "skipped"] (diffuse "a.tex") [diffuse "b.tex"] "a.tex"
            _ _ _ _ _ _ _ _).
  - vm_compute. reflexivity.
  - discriminate.
  - discriminate.
  - vm_compute. reflexivity.
  - vm_compute. reflexivity.
  - reflexivity.
  - repeat constructor.
  - vm_compute. reflexivity.
Defined.

(** X14.  An override without a direct texture contributes nothing when
    its link is zero, when no entry is indexed under it, when the linked
    entry has no sampler field, or (bin_parser.cpp) when no sampler of its
    list is accepted. *)
Theorem unresolved_link_contributes_nothing entries_map results ov :
  (∀ mat_name linked,
     BinParser.override_fields ov = (mat_name, "", linked) →
     linked = 0
     ∨ entries_map !! linked = None
     ∨ (∃ mat_entry,
          entries_map !! linked = Some mat_entry
          ∧ (BinParser.find_field mat_entry BinParser.HASH_SAMPLER_VALUES
               = None
             ∨ ∃ props_field elems,
                 BinParser.find_field mat_entry BinParser.HASH_SAMPLER_VALUES
                   = Some props_field
                 ∧ (value_of props_field = ListA elems
                    ∨ value_of props_field = ListB elems)
                 ∧ Forall (λ v, BinParser.process_prop v = None) elems)) →
     BinParser.process_override entries_map results (Object ov) = results)
  ∧ (∀ mat_name linked,
     RitobinDll.override_fields ov = (mat_name, "", linked) →
     linked = 0
     ∨ entries_map !! linked = None
     ∨ (∃ mat_entry,
          entries_map !! linked = Some mat_entry
          ∧ RitobinDll.find_field mat_entry RitobinDll.HASH_PROPERTIES_LIST
            = None) →
     RitobinDll.process_override entries_map results (Object ov) = results).
Proof.
  split; intros mat_name linked Hfields Hwhy.
  - unfold BinParser.process_override. cbn [BinParser.get_embed].
    rewrite Hfields.
    assert (BinParser.resolve_path entries_map "" linked = "") as ->.
    { unfold BinParser.resolve_path. rewrite bool_decide_eq_true_2 by done.
      destruct Hwhy as [->|[Hnone|(mat & Hmat & Hrest)]]; [done|..];
        destruct (linked =? 0); try done; cbn [negb andb];
        unfold BinParser.follow_link.
      - by rewrite Hnone.
      - rewrite Hmat.
        destruct Hrest as [->|(f & elems & -> & Hv & Hnone)]; [done|].
        destruct Hv as [->| ->];
          cbn [BinParser.get_list BinParser.get_list2];
          by apply scan_props_no_match. }
    unfold BinParser.record_override.
    by rewrite (bool_decide_eq_true_2 ("" = "")), andb_false_r.
  - unfold RitobinDll.process_override. rewrite Hfields.
    assert (RitobinDll.resolve_path entries_map "" linked = "") as ->.
    { unfold RitobinDll.resolve_path. rewrite bool_decide_eq_true_2 by done.
      destruct Hwhy as [->|[Hnone|(mat & Hmat & Hrest)]]; [done|..];
        destruct (linked =? 0); try done; cbn [negb andb];
        unfold RitobinDll.follow_link.
      - by rewrite Hnone.
      - by rewrite Hmat, Hrest. }
    by rewrite (bool_decide_eq_true_2 ("" = "")), andb_false_r.
Qed.

Lemma unresolved_link_contributes_nothing_witness :
  BinParser.process_override ∅ {[ "BASE" := "base.tex" ]}
    (linked_override (Link (fnv 2)))
  = {[ "BASE" := "base.tex" ]}.
Proof.
  refine (proj1 (unresolved_link_contributes_nothing ∅ _ _) "Body" 2 _ _).
  - vm_compute. reflexivity.
  - right. left. reflexivity.
Defined.

(** *** The base texture *)






(** *** The text *)

Lemma append_length (a b : string) :
  String.length (a +:+ b) = (String.length a + String.length b)%nat.
Proof. induction a as [|c a IH]; [done|]. simpl. by f_equal. Qed.

Lemma lines_length_perm a b : a ≡ₚ b → lines_length a = lines_length b.
Proof.
  induction 1 as [|kv a b _ IH|kv kv' a|a b c _ IHab _ IHbc].
  - done.
  - unfold lines_length in *. cbn [foldr]. by rewrite IH.
  - unfold lines_length. cbn [foldr]. lia.
  - by rewrite IHab.
Qed.

Lemma serialize_length iterate results :
  String.length (BinParser.serialize iterate results)
  = lines_length (iterate results).
Proof.
  unfold BinParser.serialize, lines_length.
  induction (iterate results) as [|[k v] entries IH]; [done|].
  cbn [foldr fst snd]. rewrite !append_length, IH.
  change (String.length "=") with 1%nat.
  change (String.length BinParser.newline) with 1%nat. lia.
Qed.

Lemma serialize_text iterate results :
  BinParser.visits_all iterate results →
  String.length (BinParser.serialize iterate results)
  = lines_length (map_to_list results)
  ∧ (BinParser.serialize iterate results = "" ↔ results = ∅).
Proof.
  intros Hvisit.
  pose proof (serialize_length iterate results) as Hlen.
  rewrite (lines_length_perm _ _ Hvisit) in Hlen.
  split; [done|]. split.
  - intros Htext. apply map_to_list_empty_iff. rewrite Htext in Hlen.
    destruct (map_to_list results) as [|[k v] entries]; [done|].
    cbn in Hlen. lia.
  - intros ->. unfold BinParser.visits_all in Hvisit.
    rewrite map_to_list_empty in Hvisit. apply Permutation_nil_r in Hvisit.
    unfold BinParser.serialize. by rewrite Hvisit.
Qed.

(** X16.  Whatever the order in which the library visits the results,
    every pair once, the text returned by [extract_textures] has, for each
    entry of the mapping, the length of the name, of the path and two more
    characters; it is empty exactly when the mapping is empty. *)
Theorem text_length iterate bin :
  BinParser.visits_all iterate (BinParser.collect bin) →
  String.length (BinParser.extract_textures iterate bin)
  = lines_length (map_to_list (BinParser.collect bin))
  ∧ (BinParser.extract_textures iterate bin = "" ↔ BinParser.collect bin = ∅).
Proof.
  unfold BinParser.extract_textures, BinParser.collect.
  destruct (sections bin !! "entries") as [v|];
    [|by rewrite map_to_list_empty].
  destruct v as [| | | | | |pairs|];
    try (by rewrite map_to_list_empty).
  apply serialize_text.
Qed.

Lemma text_length_witness :
  String.length (BinParser.extract_textures (λ m, reverse (map_to_list m))
                   plain_document)
  = 39%nat.
Proof.
  refine (eq_trans (proj1 (text_length (λ m, reverse (map_to_list m))
                             plain_document _)) _).
  - apply reverse_Permutation.
  - vm_compute. reflexivity.
Defined.

(** *** The exported wrapper *)

Lemma list_byte_of_string_length s :
  length (String.list_byte_of_string s) = String.length s.
Proof.
  unfold String.list_byte_of_string. rewrite length_map.
  induction s as [|c s IH]; [done|]. simpl. by f_equal.
Qed.

(** X17.  [parse_bin_textures] returns the status of a parse failure when
    the decoder reports an error.  Otherwise, with an allocator that does not
    fail, it returns a buffer that holds the bytes of the text followed by
    one NUL byte, and reports the length of the text, the NUL not counted. *)
Theorem parse_bin_textures_buffer read_binary extract_textures malloc_ok
    buffer error bin :
  read_binary buffer = (error, bin) →
  (error ≠ "" →
   ParseBin.parse_bin_textures read_binary extract_textures malloc_ok
     (Some buffer) = Failure (-2))
  ∧ (error = "" → ConvertSpec.always malloc_ok →
     Z.of_nat (String.length (extract_textures bin)) < 2 ^ 32 - 1 →
     ParseBin.parse_bin_textures read_binary extract_textures malloc_ok
       (Some buffer)
     = Success
         (Some <$> (String.list_byte_of_string (extract_textures bin)
                    ++ [x00]))
         (Z.of_nat (String.length (extract_textures bin)))).
Proof.
  intros Hread. unfold ParseBin.parse_bin_textures. rewrite Hread. split.
  - intros Herr. by rewrite bool_decide_eq_false_2.
  - intros -> Hmalloc Hlen. rewrite bool_decide_eq_true_2 by done.
    cbn [negb]. set (text := extract_textures bin) in *.
    rewrite (ConvertProofs.u32_small (Z.of_nat (String.length text))) by lia.
    rewrite ConvertProofs.u32_small by lia. rewrite Hmalloc. cbn [negb].
    erewrite (ConvertProofs.memcpy_append []
                (String.list_byte_of_string text ++ [x00])
                (String.length text + 1)).
    + cbn [or_fault app]. rewrite length_app, list_byte_of_string_length.
      cbn [length]. by rewrite Nat.sub_diag, app_nil_r.
    + unfold malloc. cbn [fmap list_fmap app]. f_equal. lia.
    + done.
    + unfold Zlen. rewrite length_app, list_byte_of_string_length.
      cbn [length]. lia.
    + rewrite length_app, list_byte_of_string_length. cbn [length]. lia.
Qed.

Lemma parse_bin_textures_buffer_witness :
  ParseBin.parse_bin_textures
    (λ _, ("", override_document (ListA [direct_override])))
    (BinParser.extract_textures map_to_list) (λ _, true) (Some [])
  = Success
      (Some <$> (String.list_byte_of_string
                   ("Body=body.tex" +:+ BinParser.newline) ++ [x00]))
      14.
Proof.
  refine (proj2 (parse_bin_textures_buffer
                   (λ _, ("", override_document (ListA [direct_override])))
                   (BinParser.extract_textures map_to_list) (λ _, true) [] ""
                   (override_document (ListA [direct_override])) eq_refl)
            eq_refl _ _).
  - intros n. reflexivity.
  - vm_compute. reflexivity.
Defined.

End ExtractMore.
